(** * R2 upload gateway (r2_uploader.js): model and verified properties

    The gateway is an Express application with three JSON handlers
    ([POST /generate-upload-url], [POST /generate-download-url],
    [POST /upload]).  The handlers are embedded as functions in a small
    state-and-exception monad over a [World] that holds the process
    environment, the staging disk, the object store and the outcome of
    every call that can throw.  The JavaScript built-in
    [encodeURIComponent], which the handlers call to build the public URL,
    is embedded after ECMA-262 (abstract operations Encode, CodePointAt,
    UTF-8 transformation), over strings of UTF-16 code units. *)

From Stdlib Require Import ZArith Lia List.
From stdpp Require Import gmap strings list fin_maps.

(** ** JavaScript strings *)

(** A JavaScript string is a sequence of UTF-16 code units. *)
Abbreviation js_string := (list Z).

(** The code units of an ASCII literal of the source. *)
Definition js (s : string) : js_string :=
  (λ a, Z.of_nat (Ascii.nat_of_ascii a)) <$> String.list_ascii_of_string s.

(** Every element is a 16-bit code unit. *)
Definition code_units (s : js_string) : Prop :=
  Forall (λ c, 0 ≤ c < 65536)%Z s.

Module URI.
Local Open Scope Z_scope.

(** *** Encode (ECMA-262, encodeURIComponent) *)

(** "ASCII word characters": letters, digits and the underscore. *)
Definition ascii_word (c : Z) : bool :=
  (65 <=? c) && (c <=? 90) || (97 <=? c) && (c <=? 122)
  || (48 <=? c) && (c <=? 57) || (c =? 95).

(** The marks [-.!~*'()]. *)
Definition uri_mark (c : Z) : bool :=
  (c =? 45) || (c =? 46) || (c =? 33) || (c =? 126)
  || (c =? 42) || (c =? 39) || (c =? 40) || (c =? 41).

(** alwaysUnescaped; encodeURIComponent adds no extra unescaped unit. *)
Definition unescaped (c : Z) : bool := ascii_word c || uri_mark c.

Definition is_leading_surrogate (c : Z) : bool := (0xD800 <=? c) && (c <=? 0xDBFF).
Definition is_trailing_surrogate (c : Z) : bool := (0xDC00 <=? c) && (c <=? 0xDFFF).

(** UTF16SurrogatePairToCodePoint. *)
Definition UTF16SurrogatePairToCodePoint (lead trail : Z) : Z :=
  (lead - 0xD800) * 0x400 + (trail - 0xDC00) + 0x10000.

(** The UTF-8 transformation of a code point into octets. *)
Definition utf8_octets (cp : Z) : list Z :=
  if cp <? 0x80 then [cp]
  else if cp <? 0x800 then [0xC0 + cp / 64; 0x80 + cp mod 64]
  else if cp <? 0x10000 then
    [0xE0 + cp / 4096; 0x80 + (cp / 64) mod 64; 0x80 + cp mod 64]
  else
    [0xF0 + cp / 262144; 0x80 + (cp / 4096) mod 64;
     0x80 + (cp / 64) mod 64; 0x80 + cp mod 64].

(** One uppercase hexadecimal digit. *)
Definition hex_digit (d : Z) : Z := if d <? 10 then 48 + d else 55 + d.

(** ["%"] followed by the octet as two uppercase hexadecimal digits. *)
Definition percent (octet : Z) : js_string :=
  [37; hex_digit (octet / 16); hex_digit (octet mod 16)].

Definition percent_octets (octets : list Z) : js_string :=
  octets ≫= percent.

(** Encode with no extra unescaped unit: [None] stands for the URIError thrown on an
    unpaired surrogate.  The position [k] of the standard is the head of
    the remaining list; CodePointAt reads one unit, or two for a pair. *)
Fixpoint Encode (s : js_string) : option js_string :=
  match s with
  | [] => Some []
  | c :: rest =>
    if unescaped c then (c ::.) <$> Encode rest
    else if is_leading_surrogate c then
      match rest with
      | d :: rest' =>
        if is_trailing_surrogate d then
          (percent_octets (utf8_octets (UTF16SurrogatePairToCodePoint c d)) ++.)
            <$> Encode rest'
        else None
      | [] => None
      end
    else if is_trailing_surrogate c then None
    else (percent_octets (utf8_octets c) ++.) <$> Encode rest
  end.

Definition encodeURIComponent (s : js_string) : option js_string := Encode s.

(** *** Decode (ECMA-262, decodeURIComponent)

    The source only encodes; the decoder is the built-in a consumer of the
    public URL applies to get the object key back. *)

Definition hex_value (c : Z) : option Z :=
  if (48 <=? c) && (c <=? 57) then Some (c - 48)
  else if (65 <=? c) && (c <=? 70) then Some (c - 55)
  else if (97 <=? c) && (c <=? 102) then Some (c - 87)
  else None.

(** A ["%XY"] escape at the head of the string: its octet and the rest. *)
Definition escape (s : js_string) : option (Z * js_string) :=
  match s with
  | p :: h :: l :: rest =>
    if p =? 37 then
      hi ← hex_value h; lo ← hex_value l; Some (16 * hi + lo, rest)
    else None
  | _ => None
  end.

(** The number of leading 1 bits of an octet (5 stands for "more than 4"). *)
Definition leading_ones (b : Z) : nat :=
  if b <? 0x80 then 0
  else if b <? 0xC0 then 1
  else if b <? 0xE0 then 2
  else if b <? 0xF0 then 3
  else if b <? 0xF8 then 4
  else 5.

Fixpoint continuation_octets (n : nat) (s : js_string)
  : option (list Z * js_string) :=
  match n with
  | O => Some ([], s)
  | S n' =>
    '(b, r) ← escape s;
    '(bs, r') ← continuation_octets n' r;
    Some (b :: bs, r')
  end.

Definition is_continuation (b : Z) : bool := (0x80 <=? b) && (b <=? 0xBF).

(** The code point of a multi-octet sequence, when the sequence is a valid
    UTF-8 encoding: continuation octets, shortest form, no surrogate,
    at most U+10FFFF. *)
Definition utf8_code_point (octets : list Z) : option Z :=
  match octets with
  | [b0; b1] =>
    let v := (b0 - 0xC0) * 64 + (b1 - 0x80) in
    if is_continuation b1 && (0x80 <=? v) then Some v else None
  | [b0; b1; b2] =>
    let v := (b0 - 0xE0) * 4096 + (b1 - 0x80) * 64 + (b2 - 0x80) in
    if is_continuation b1 && is_continuation b2 && (0x800 <=? v)
       && negb ((0xD800 <=? v) && (v <=? 0xDFFF))
    then Some v else None
  | [b0; b1; b2; b3] =>
    let v := (b0 - 0xF0) * 262144 + (b1 - 0x80) * 4096
             + (b2 - 0x80) * 64 + (b3 - 0x80) in
    if is_continuation b1 && is_continuation b2 && is_continuation b3
       && (0x10000 <=? v) && (v <=? 0x10FFFF)
    then Some v else None
  | _ => None
  end.

Definition UTF16EncodeCodePoint (cp : Z) : js_string :=
  if cp <=? 0xFFFF then [cp]
  else [(cp - 0x10000) / 0x400 + 0xD800; (cp - 0x10000) mod 0x400 + 0xDC00].

(** Decode with no preserved escape: one iteration of the standard's loop per unit of
    fuel; [None] is a URIError. *)
Fixpoint Decode (fuel : nat) (s : js_string) : option js_string :=
  match s with
  | [] => Some []
  | c :: rest =>
    match fuel with
    | O => None
    | S fuel' =>
      if c =? 37 then
        '(b, r) ← escape s;
        match leading_ones b with
        | O => (b ::.) <$> Decode fuel' r
        | 1%nat => None
        | 5%nat => None
        | S n' =>
          '(bs, r') ← continuation_octets n' r;
          v ← utf8_code_point (b :: bs);
          (UTF16EncodeCodePoint v ++.) <$> Decode fuel' r'
        end
      else (c ::.) <$> Decode fuel' rest
    end
  end.

(** Every iteration consumes at least one code unit, so the length of the
    string is enough fuel. *)
Definition decodeURIComponent (s : js_string) : option js_string :=
  Decode (length s) s.

(** The part of a URL after its last ['/'] (the whole string when it has
    none), as [url.substring(url.lastIndexOf('/') + 1)]. *)
Fixpoint after_last_slash (acc s : js_string) : js_string :=
  match s with
  | [] => acc
  | c :: r => if c =? 47 then after_last_slash r r else after_last_slash acc r
  end.

Definition last_path_segment (url : js_string) : js_string :=
  after_last_slash url url.

(** An 8-bit value. *)
Definition octet (b : Z) : Prop := 0 ≤ b < 256.

(** A code point that has a UTF-8 encoding: a Unicode scalar value. *)
Definition scalar (cp : Z) : Prop :=
  0 ≤ cp ≤ 0x10FFFF ∧ ¬ (0xD800 ≤ cp ≤ 0xDFFF).

End URI.

(** [String.prototype.isWellFormed]: no unpaired surrogate. *)
Fixpoint isWellFormed (s : js_string) : bool :=
  match s with
  | [] => true
  | c :: rest =>
    if URI.is_leading_surrogate c then
      match rest with
      | d :: rest' => URI.is_trailing_surrogate d && isWellFormed rest'
      | [] => false
      end
    else negb (URI.is_trailing_surrogate c) && isWellFormed rest
  end.

(** ** JavaScript values and errors *)

(** The values a handler can find in a parsed JSON body.  Of a number,
    an array or an object the handlers observe only the truthiness and the
    string conversion, which [JOther] carries. *)
Inductive jsval :=
| JUndefined
| JNull
| JBool (b : bool)
| JStr (s : js_string)
| JOther (truthy : bool) (str : js_string).

Definition ToBoolean (v : jsval) : bool :=
  match v with
  | JUndefined | JNull => false
  | JBool b => b
  | JStr s => negb (bool_decide (s = []))
  | JOther t _ => t
  end.

Definition ToString (v : jsval) : js_string :=
  match v with
  | JUndefined => js "undefined"
  | JNull => js "null"
  | JBool true => js "true"
  | JBool false => js "false"
  | JStr s => s
  | JOther _ str => str
  end.

(** [a || b] on values. *)
Definition js_or (a b : jsval) : jsval := if ToBoolean a then a else b.

(** [a || b] where [a] is an environment variable or an error message. *)
Definition or_default (a : option js_string) (b : js_string) : js_string :=
  match a with
  | Some s => if bool_decide (s = []) then b else s
  | None => b
  end.

(** A property of an object; [undefined] when absent. *)
Definition field (o : gmap string jsval) (k : string) : jsval :=
  default JUndefined (o !! k).

(** A thrown [Error]; the handlers read only [err.message]. *)
Record Error := { message : js_string }.

Definition URIError : Error := {| message := js "URI malformed" |}.

(** ** The object store client *)

(** The input of a command: [Body] and [ContentType] are absent from a
    GetObjectCommand and [Body] from a command that is only signed. *)
Record CommandInput := {
  Bucket : option js_string;
  Key : jsval;
  Body : option (list Z);
  ContentType : jsval
}.

Inductive Command :=
| PutObjectCommand (input : CommandInput)
| GetObjectCommand (input : CommandInput).

Record StoredObject := { data : list Z; content_type : jsval }.

(** ** The world of a request *)

Inductive Event :=
| EvSign (command : Command) (expiresIn : Z)
| EvSend (command : Command)
| EvRead (path : js_string)
| EvUnlink (path : js_string)
| EvConsoleError (label : js_string) (err : Error).

(** [presigner], [read_fault], [send_fault] and [unlink_faults] fix the
    outcome of the calls that can throw for reasons outside the program:
    signing, reading a file that exists, the store accepting a write, and
    each successive [unlinkSync] (an exhausted list means no fault). *)
Record World := {
  R2_BUCKET : option js_string;
  R2_PUBLIC_URL : option js_string;
  disk : gmap js_string (list Z);
  bucket : gmap js_string StoredObject;
  presigner : Command → Z → Error + js_string;
  read_fault : js_string → option Error;
  send_fault : Command → option Error;
  unlink_faults : list (option Error);
  trace : list Event
}.

Definition set_disk (d : gmap js_string (list Z)) (w : World) : World :=
  {| R2_BUCKET := R2_BUCKET w; R2_PUBLIC_URL := R2_PUBLIC_URL w; disk := d;
     bucket := bucket w; presigner := presigner w; read_fault := read_fault w;
     send_fault := send_fault w; unlink_faults := unlink_faults w;
     trace := trace w |}.

Definition set_bucket (b : gmap js_string StoredObject) (w : World) : World :=
  {| R2_BUCKET := R2_BUCKET w; R2_PUBLIC_URL := R2_PUBLIC_URL w; disk := disk w;
     bucket := b; presigner := presigner w; read_fault := read_fault w;
     send_fault := send_fault w; unlink_faults := unlink_faults w;
     trace := trace w |}.

Definition set_unlink_faults (f : list (option Error)) (w : World) : World :=
  {| R2_BUCKET := R2_BUCKET w; R2_PUBLIC_URL := R2_PUBLIC_URL w; disk := disk w;
     bucket := bucket w; presigner := presigner w; read_fault := read_fault w;
     send_fault := send_fault w; unlink_faults := f; trace := trace w |}.

Definition set_trace (t : list Event) (w : World) : World :=
  {| R2_BUCKET := R2_BUCKET w; R2_PUBLIC_URL := R2_PUBLIC_URL w; disk := disk w;
     bucket := bucket w; presigner := presigner w; read_fault := read_fault w;
     send_fault := send_fault w; unlink_faults := unlink_faults w;
     trace := t |}.

(** ** State and exception monad *)

Definition M (A : Type) : Type := World → (Error + A) * World.

Definition ret {A} (a : A) : M A := λ w, (inr a, w).

Definition throw {A} (e : Error) : M A := λ w, (inl e, w).

Definition bind {A B} (m : M A) (k : A → M B) : M B :=
  λ w, match m w with
       | (inl e, w') => (inl e, w')
       | (inr a, w') => k a w'
       end.

(** [try { m } catch (err) { h err }] *)
Definition try_catch {A} (m : M A) (h : Error → M A) : M A :=
  λ w, match m w with
       | (inl e, w') => h e w'
       | (inr a, w') => (inr a, w')
       end.

#[global] Instance M_ret : MRet M := @ret.
#[global] Instance M_bind : MBind M := λ A B k m, bind m k.

Definition emit (e : Event) : M () :=
  λ w, (inr (), set_trace (trace w ++ [e]) w).

Definition getenv (var : World → option js_string) : M (option js_string) :=
  λ w, (inr (var w), w).

Definition console_error (label : string) (err : Error) : M () :=
  emit (EvConsoleError (js label) err).

(** *** fs *)

Definition ENOENT (syscall : string) (path : js_string) : Error :=
  {| message := js "ENOENT: no such file or directory, " ++ js syscall
                ++ js " '" ++ path ++ js "'" |}.

Definition existsSync (path : js_string) : M bool :=
  λ w, (inr (bool_decide (is_Some (disk w !! path))), w).

Definition readFileSync (path : js_string) : M (list Z) :=
  emit (EvRead path);;
  ((λ w, match read_fault w path with
       | Some e => (inl e, w)
       | None =>
         match disk w !! path with
         | Some buffer => (inr buffer, w)
         | None => (inl (ENOENT "open" path), w)
         end
       end) : M (list Z)).

Definition unlinkSync (path : js_string) : M () :=
  emit (EvUnlink path);;
  ((λ w, let w' := set_unlink_faults (tail (unlink_faults w)) w in
       match head (unlink_faults w) with
       | Some (Some e) => (inl e, w')
       | _ =>
         match disk w !! path with
         | Some _ => (inr (), set_disk (delete path (disk w)) w')
         | None => (inl (ENOENT "unlink" path), w')
         end
       end) : M ()).

(** *** S3 client *)

(** [getSignedUrl(s3, command, { expiresIn })] *)
Definition getSignedUrl (command : Command) (expiresIn : Z) : M js_string :=
  emit (EvSign command expiresIn);;
  ((λ w, match presigner w command expiresIn with
       | inl e => (inl e, w)
       | inr url => (inr url, w)
       end) : M js_string).

(** [s3.send(command)]: an accepted PutObjectCommand stores the object
    under its key. *)
Definition s3_send (command : Command) : M () :=
  emit (EvSend command);;
  ((λ w, match send_fault w command with
       | Some e => (inl e, w)
       | None =>
         match command with
         | PutObjectCommand i =>
           (inr (),
            set_bucket (<[ToString (Key i) :=
                           {| data := default [] (Body i);
                              content_type := ContentType i |}]> (bucket w)) w)
         | GetObjectCommand _ => (inr (), w)
         end
       end) : M ()).

(** [encodeURIComponent(v)], throwing URIError. *)
Definition encodeURIComponent (v : jsval) : M js_string :=
  match URI.encodeURIComponent (ToString v) with
  | Some s => ret s
  | None => throw URIError
  end.

(** ** The handlers *)

Record Response := { status : Z; body : gmap string jsval }.

(** [res.json(obj)] and [res.status(code).json(obj)] *)
Definition json (obj : list (string * jsval)) : Response :=
  {| status := 200; body := list_to_map obj |}.

Definition status_json (code : Z) (obj : list (string * jsval)) : Response :=
  {| status := code; body := list_to_map obj |}.

(** [process.env.R2_PUBLIC_URL || 'https://cdn.atulyaayurveda.shop'] *)
Definition default_base_url : js_string := js "https://cdn.atulyaayurveda.shop".

Definition base_url (w : World) : js_string :=
  or_default (R2_PUBLIC_URL w) default_base_url.

(** [app.post('/generate-upload-url', ...)]; [req_body] is [req.body] as
    [express.json()] leaves it. *)
Definition generate_upload_url (req_body : gmap string jsval) : M Response :=
  try_catch
    (let filename := field req_body "filename" in
     let contentType := field req_body "contentType" in
     if negb (ToBoolean filename) then
       ret (status_json 400 [("error", JStr (js "Filename is required"))])
     else
       Bucket_ ← getenv R2_BUCKET;
       let command := PutObjectCommand
         {| Bucket := Bucket_;
            Key := filename;
            Body := None;
            ContentType := js_or contentType (JStr (js "application/octet-stream")) |} in
       presignedUrl ← getSignedUrl command 3600;
       env_url ← getenv R2_PUBLIC_URL;
       let baseUrl := or_default env_url default_base_url in
       encodedFilename ← encodeURIComponent filename;
       let publicUrl := baseUrl ++ js "/" ++ encodedFilename in
       ret (json [("success", JBool true);
                  ("presignedUrl", JStr presignedUrl);
                  ("publicUrl", JStr publicUrl);
                  ("filename", filename);
                  ("message", JStr (js "Presigned URL generated successfully"))]))
    (λ err,
     console_error "Error generating presigned URL:" err;;
     ret (status_json 500
            [("success", JBool false);
             ("error", JStr (or_default (Some (message err))
                               (js "Failed to generate presigned URL")))])).

(** [app.post('/generate-download-url', ...)] *)
Definition generate_download_url (req_body : gmap string jsval) : M Response :=
  try_catch
    (let filename := field req_body "filename" in
     if negb (ToBoolean filename) then
       ret (status_json 400 [("error", JStr (js "Filename is required"))])
     else
       Bucket_ ← getenv R2_BUCKET;
       let command := GetObjectCommand
         {| Bucket := Bucket_; Key := filename; Body := None;
            ContentType := JUndefined |} in
       presignedUrl ← getSignedUrl command 3600;
       ret (json [("success", JBool true);
                  ("presignedUrl", JStr presignedUrl);
                  ("filename", filename);
                  ("message", JStr (js "Download URL generated successfully"))]))
    (λ err,
     console_error "Error generating download URL:" err;;
     ret (status_json 500
            [("success", JBool false);
             ("error", JStr (or_default (Some (message err))
                               (js "Failed to generate download URL")))])).

(** [req.file], as multer's disk storage fills it. *)
Record File := {
  path : js_string;
  originalname : js_string;
  mimetype : js_string
}.

(** [app.post('/upload', upload.single('file'), ...)] *)
Definition upload (req_file : option File) : M Response :=
  match req_file with
  | None => ret (status_json 400 [("error", JStr (js "No file uploaded"))])
  | Some file =>
    try_catch
      (found ← existsSync (path file);
       (if negb found return M ()
        then throw {| message := js "Uploaded file not found on disk" |}
        else ret ());;
       fileBuffer ← readFileSync (path file);
       Bucket_ ← getenv R2_BUCKET;
       let uploadParams :=
         {| Bucket := Bucket_;
            Key := JStr (originalname file);
            Body := Some fileBuffer;
            ContentType := JStr (mimetype file) |} in
       s3_send (PutObjectCommand uploadParams);;
       unlinkSync (path file);;
       env_url ← getenv R2_PUBLIC_URL;
       let baseUrl := or_default env_url default_base_url in
       encodedFilename ← encodeURIComponent (JStr (originalname file));
       let publicUrl := baseUrl ++ js "/" ++ encodedFilename in
       ret (json [("success", JBool true);
                  ("video_url", JStr publicUrl);
                  ("thumbnail_url", JStr []);
                  ("duration", JStr []);
                  ("message", JStr (js "Video uploaded successfully"))]))
      (λ err,
       console_error "Upload error:" err;;
       found ← (if ToBoolean (JStr (path file)) return M bool
                then existsSync (path file) else ret false);
       (if (found : bool) return M ()
        then try_catch (unlinkSync (path file))
               (λ cleanupErr,
                console_error "Error cleaning up temp file:" cleanupErr)
        else ret ());;
       ret (status_json 500
              [("success", JBool false);
               ("error", JStr (or_default (Some (message err))
                                 (js "Upload failed")))]))
  end.

(** The signing requests among a list of events. *)
Definition sign_requests (t : list Event) : list (Command * Z) :=
  omap (λ e, match e with EvSign c x => Some (c, x) | _ => None end) t.

(** The commands sent to the store among a list of events. *)
Definition sent_commands (t : list Event) : list Command :=
  omap (λ e, match e with EvSend c => Some c | _ => None end) t.

(** The paths whose deletion was attempted among a list of events. *)
Definition unlink_attempts (t : list Event) : list js_string :=
  omap (λ e, match e with EvUnlink p => Some p | _ => None end) t.


(** ** Vocabulary of the properties *)

(** The command [POST /generate-upload-url] has signed for a body. *)
Definition upload_command (w : World) (req_body : gmap string jsval) : Command :=
  PutObjectCommand
    {| Bucket := R2_BUCKET w;
       Key := field req_body "filename";
       Body := None;
       ContentType := js_or (field req_body "contentType")
                        (JStr (js "application/octet-stream")) |}.

(** The command [POST /generate-download-url] has signed for a body. *)
Definition download_command (w : World) (req_body : gmap string jsval) : Command :=
  GetObjectCommand
    {| Bucket := R2_BUCKET w;
       Key := field req_body "filename";
       Body := None;
       ContentType := JUndefined |}.

(** The body has an [error] property holding a non-empty message. *)
Definition has_error_message (r : Response) : Prop :=
  ∃ msg, msg ≠ [] ∧ body r !! "error" = Some (JStr msg).

(** The three shapes of a response of the gateway. *)
Definition success_response (r : Response) : Prop :=
  status r = 200%Z ∧ body r !! "success" = Some (JBool true)
  ∧ body r !! "error" = None.

Definition server_error_response (r : Response) : Prop :=
  status r = 500%Z ∧ body r !! "success" = Some (JBool false)
  ∧ has_error_message r.

Definition client_error_response (r : Response) : Prop :=
  status r = 400%Z ∧ body r !! "success" = None ∧ has_error_message r.

(** A world and a staged file to run the handlers on. *)
Definition world0 : World :=
  {| R2_BUCKET := Some (js "videos");
     R2_PUBLIC_URL := None;
     disk := {[ js "uploads/3f9a" := [104; 105]%Z ]};
     bucket := ∅;
     presigner := λ _ _, inr (js "https://r2.example/videos/key?X-Amz-Expires=3600");
     read_fault := λ _, None;
     send_fault := λ _, None;
     unlink_faults := [];
     trace := [] |}.

Definition file0 : File :=
  {| path := js "uploads/3f9a";
     originalname := js "a b.txt";
     mimetype := js "text/plain" |}.

Definition EPERM : Error :=
  {| message := js "EPERM: operation not permitted, unlink" |}.

(** The outcome of an [unlinkSync] that does not throw for an outside
    reason. *)
Definition no_fault (f : option (option Error)) : Prop :=
  f = None ∨ f = Some None.

(** The input of the PutObjectCommand [POST /upload] sends. *)
Definition upload_params (w : World) (file : File) (buffer : list Z) : CommandInput :=
  {| Bucket := R2_BUCKET w;
     Key := JStr (originalname file);
     Body := Some buffer;
     ContentType := JStr (mimetype file) |}.

(** [world0] with a signing call that throws. *)
Definition world_sign_fails : World :=
  {| R2_BUCKET := R2_BUCKET world0;
     R2_PUBLIC_URL := R2_PUBLIC_URL world0;
     disk := disk world0;
     bucket := bucket world0;
     presigner := λ _ _, inl {| message := js "Credential is missing" |};
     read_fault := read_fault world0;
     send_fault := send_fault world0;
     unlink_faults := unlink_faults world0;
     trace := trace world0 |}.

(** Request bodies: a filename alone, and the same with a content type
    and a field the handlers do not read. *)
Definition body0 : gmap string jsval :=
  {[ "filename" := JStr (js "a b.txt") ]}.

Definition body1 : gmap string jsval :=
  <["contentType" := JStr (js "text/plain")]> body0.

Definition body2 : gmap string jsval :=
  <["userId" := JOther true (js "42")]> body1.

(** A filename with a space, U+00E9, U+20AC, the surrogate pair of
    U+1F600 and the reserved characters [/ ? # %]. *)
Definition filename1 : js_string :=
  [97; 32; 0xE9; 0x20AC; 0xD83D; 0xDE00; 47; 63; 35; 37]%Z.


(** ** Further vocabulary *)

(** [app.get('/health', ...)] *)
Definition health : M Response :=
  ret (json [("status", JStr (js "ok"));
             ("message", JStr (js "R2 uploader is running"))]).

(** [world0] with a store that rejects every command. *)
Definition world_store_rejects : World :=
  {| R2_BUCKET := R2_BUCKET world0;
     R2_PUBLIC_URL := R2_PUBLIC_URL world0;
     disk := disk world0;
     bucket := bucket world0;
     presigner := presigner world0;
     read_fault := read_fault world0;
     send_fault := λ _, Some {| message := js "AccessDenied" |};
     unlink_faults := unlink_faults world0;
     trace := trace world0 |}.

(** A second staged file with the original name of [file0], and a disk
    that holds both. *)
Definition file1 : File :=
  {| path := js "uploads/7c21";
     originalname := js "a b.txt";
     mimetype := js "application/pdf" |}.

Definition disk2 : gmap js_string (list Z) :=
  <[js "uploads/7c21" := [98; 121; 101]%Z]> (disk world0).

(** [world0] with a signer that percent-encodes the key, as the SDK's
    does, and so throws URIError on a key with an unpaired surrogate. *)
Definition world_sdk : World :=
  {| R2_BUCKET := R2_BUCKET world0;
     R2_PUBLIC_URL := R2_PUBLIC_URL world0;
     disk := disk world0;
     bucket := bucket world0;
     presigner := λ command _,
       match command with
       | PutObjectCommand input | GetObjectCommand input =>
         if isWellFormed (ToString (Key input))
         then inr (js "https://r2.example/videos/key?X-Amz-Expires=3600")
         else inl URIError
       end;
     read_fault := read_fault world0;
     send_fault := send_fault world0;
     unlink_faults := unlink_faults world0;
     trace := trace world0 |}.

(** ** Symbolic execution of the handlers *)

Arguments js : simpl never.
Arguments json : simpl never.
Arguments status_json : simpl never.

(** Unfold a handler and the monad down to the components of the world. *)
Ltac run_handler :=
  cbv [generate_upload_url generate_download_url upload try_catch
       mbind mret M_bind M_ret bind ret throw emit getenv console_error
       existsSync readFileSync unlinkSync getSignedUrl s3_send
       encodeURIComponent
       set_trace set_disk set_bucket set_unlink_faults
       R2_BUCKET R2_PUBLIC_URL disk bucket presigner read_fault send_fault
       unlink_faults trace] in *.

(** Split on the next branch whose condition is in the open. *)
Ltac branch :=
  match goal with
  | |- context [bool_decide ?P] => destruct (bool_decide_reflect P)
  | |- context [match ?x with Some _ => _ | None => _ end] => destruct x eqn:?
  | |- context [match ?x with inl _ => _ | inr _ => _ end] => destruct x eqn:?
  | |- context [if ?c then _ else _] => destruct c eqn:?
  end; cbv beta iota zeta in *; cbn [negb] in *.

(** Close a branch whose conditions contradict what is known of the world. *)
Ltac contradictory :=
  exfalso;
  first
    [ congruence
    | match goal with
      | H : ¬ is_Some _ |- _ =>
        apply H; eapply mk_is_Some; first [eassumption | reflexivity]
      end
    | match goal with
      | H : is_Some _ |- _ => destruct H; congruence
      end ].

(** Case analysis on every comparison of the goal. *)
Ltac cases_cmp :=
  repeat match goal with
  | |- context [(?a <? ?b)%Z] => destruct (Z.ltb_spec a b)
  | |- context [(?a <=? ?b)%Z] => destruct (Z.leb_spec a b)
  | |- context [(?a =? ?b)%Z] => destruct (Z.eqb_spec a b)
  end.

(** ** Sanity checks of the model *)

Example encode_space : URI.encodeURIComponent (js "a b.txt") = Some (js "a%20b.txt").
Proof. vm_compute. reflexivity. Qed.

Example encode_reserved :
  URI.encodeURIComponent (js "x/y?z=1&w#v") = Some (js "x%2Fy%3Fz%3D1%26w%23v").
Proof. vm_compute. reflexivity. Qed.

(** U+00E9, U+20AC and the pair for U+1F600. *)
Example encode_unicode :
  URI.encodeURIComponent [0xE9; 0x20AC; 0xD83D; 0xDE00]%Z
  = Some (js "%C3%A9%E2%82%AC%F0%9F%98%80").
Proof. vm_compute. reflexivity. Qed.

Example decode_unicode :
  URI.decodeURIComponent (js "%C3%A9%E2%82%AC%F0%9F%98%80x%2f")
  = Some [0xE9; 0x20AC; 0xD83D; 0xDE00; 120; 47]%Z.
Proof. vm_compute. reflexivity. Qed.

Example encode_lone_surrogate : URI.encodeURIComponent [0xD800]%Z = None.
Proof. reflexivity. Qed.

Example decode_overlong : URI.decodeURIComponent (js "%C0%AF") = None.
Proof. vm_compute. reflexivity. Qed.

Example last_segment_ex :
  URI.last_path_segment (js "https://cdn.example/a%20b.txt") = js "a%20b.txt".
Proof. vm_compute. reflexivity. Qed.

(** ** Percent-encoding: round trip *)

Module URIFacts.
Import URI.
Local Open Scope Z_scope.

Lemma hex_value_digit d : 0 ≤ d < 16 → hex_value (hex_digit d) = Some d.
Proof.
  intros Hd. unfold hex_value, hex_digit.
  destruct (Z.ltb_spec d 10); cases_cmp; simpl; try lia; f_equal; lia.
Qed.

Lemma hex_digit_range d :
  0 ≤ d < 16 → 48 ≤ hex_digit d ≤ 57 ∨ 65 ≤ hex_digit d ≤ 70.
Proof. intros Hd. unfold hex_digit. cases_cmp; lia. Qed.

Lemma escape_percent b rest :
  octet b → escape (percent b ++ rest) = Some (b, rest).
Proof.
  intros Hb. unfold octet in Hb. unfold escape, percent. simpl.
  rewrite !hex_value_digit by (Z.div_mod_to_equations; lia). simpl.
  do 2 f_equal. Z.div_mod_to_equations; lia.
Qed.

Lemma percent_octets_cons b bs :
  percent_octets (b :: bs) = percent b ++ percent_octets bs.
Proof. reflexivity. Qed.

Lemma continuation_octets_percent bs rest :
  Forall octet bs →
  continuation_octets (length bs) (percent_octets bs ++ rest) = Some (bs, rest).
Proof.
  induction 1 as [|b bs Hb _ IH]; [reflexivity|].
  rewrite percent_octets_cons, <- app_assoc. simpl length.
  cbn [continuation_octets]. rewrite escape_percent by done. simpl.
  rewrite IH. reflexivity.
Qed.

Lemma Decode_nil fuel : Decode fuel [] = Some [].
Proof. by destruct fuel. Qed.

Lemma Decode_unfold fuel c rest :
  Decode (S fuel) (c :: rest) =
  if c =? 37 then
    '(b, r) ← escape (c :: rest);
    match leading_ones b with
    | O => (b ::.) <$> Decode fuel r
    | 1%nat => None
    | 5%nat => None
    | S n' =>
      '(bs, r') ← continuation_octets n' r;
      v ← utf8_code_point (b :: bs);
      (UTF16EncodeCodePoint v ++.) <$> Decode fuel r'
    end
  else (c ::.) <$> Decode fuel rest.
Proof. reflexivity. Qed.

(** One escaped ASCII octet decodes to that code unit. *)
Lemma Decode_percent_ascii fuel b rest :
  0 ≤ b < 0x80 →
  Decode (S fuel) (percent b ++ rest) = (b ::.) <$> Decode fuel rest.
Proof.
  intros Hb.
  assert (Hesc := escape_percent b rest ltac:(unfold octet; lia)).
  unfold percent in *. cbn [app] in *. rewrite Decode_unfold.
  change (37 =? 37) with true. cbv iota. rewrite Hesc. simpl.
  unfold leading_ones. destruct (Z.ltb_spec b 0x80); [reflexivity|lia].
Qed.

(** A multi-octet sequence decodes to the code point it encodes. *)
Lemma Decode_percent_multi fuel b bs v rest :
  octet b → Forall octet bs →
  leading_ones b = S (length bs) → (1 ≤ length bs ≤ 3)%nat →
  utf8_code_point (b :: bs) = Some v →
  Decode (S fuel) (percent_octets (b :: bs) ++ rest)
  = (UTF16EncodeCodePoint v ++.) <$> Decode fuel rest.
Proof.
  intros Hb Hbs Hn Hlen Hv.
  rewrite percent_octets_cons, <- app_assoc.
  assert (Hesc := escape_percent b (percent_octets bs ++ rest) Hb).
  unfold percent in *. cbn [app] in *. rewrite Decode_unfold.
  change (37 =? 37) with true. cbv iota. rewrite Hesc.
  cbn [mbind option_bind]. rewrite Hn.
  destruct (length bs) as [|[|[|[|k]]]] eqn:Hl; try lia;
    rewrite <- Hl, continuation_octets_percent by done;
    cbn [mbind option_bind]; rewrite Hv; reflexivity.
Qed.

Lemma utf8_octets_octet cp : 0 ≤ cp ≤ 0x10FFFF → Forall octet (utf8_octets cp).
Proof.
  intros Hcp. unfold utf8_octets, octet.
  cases_cmp; repeat constructor; Z.div_mod_to_equations; lia.
Qed.

Lemma utf8_code_point_octets cp :
  scalar cp → 0x80 ≤ cp →
  ∃ b bs, utf8_octets cp = b :: bs ∧ leading_ones b = S (length bs)
          ∧ (1 ≤ length bs ≤ 3)%nat ∧ utf8_code_point (b :: bs) = Some cp.
Proof.
  intros [Hcp Hs] Hge. unfold utf8_octets.
  destruct (Z.ltb_spec cp 0x80); [lia|].
  destruct (Z.ltb_spec cp 0x800); [|destruct (Z.ltb_spec cp 0x10000)];
    eexists _, _; (split; [reflexivity|]);
    (split; [unfold leading_ones; cases_cmp; simpl; try reflexivity;
             Z.div_mod_to_equations; lia|]);
    (split; [simpl; lia|]);
    unfold utf8_code_point, is_continuation.
  - replace (0xC0 + cp / 64 - 0xC0) with (cp / 64) by lia.
    replace (0x80 + cp mod 64 - 0x80) with (cp mod 64) by lia.
    replace (cp / 64 * 64 + cp mod 64) with cp by (Z.div_mod_to_equations; lia).
    cases_cmp; simpl; try reflexivity; Z.div_mod_to_equations; lia.
  - replace ((0xE0 + cp / 4096 - 0xE0) * 4096 + (0x80 + (cp / 64) mod 64 - 0x80) * 64
             + (0x80 + cp mod 64 - 0x80)) with cp by (Z.div_mod_to_equations; lia).
    cases_cmp; simpl; try reflexivity; Z.div_mod_to_equations; lia.
  - replace ((0xF0 + cp / 262144 - 0xF0) * 262144
             + (0x80 + (cp / 4096) mod 64 - 0x80) * 4096
             + (0x80 + (cp / 64) mod 64 - 0x80) * 64
             + (0x80 + cp mod 64 - 0x80)) with cp by (Z.div_mod_to_equations; lia).
    cases_cmp; simpl; try reflexivity; Z.div_mod_to_equations; lia.
Qed.

(** Decoding the escape sequence of a code point gives back its UTF-16
    code units. *)
Lemma Decode_code_point fuel cp rest :
  scalar cp →
  Decode (S fuel) (percent_octets (utf8_octets cp) ++ rest)
  = (UTF16EncodeCodePoint cp ++.) <$> Decode fuel rest.
Proof.
  intros Hs. destruct (Z.ltb_spec cp 0x80) as [Hlt|Hge].
  - destruct Hs as [Hcp _]. unfold utf8_octets, UTF16EncodeCodePoint.
    destruct (Z.ltb_spec cp 0x80); [|lia].
    destruct (Z.leb_spec cp 0xFFFF); [|lia].
    change (percent_octets [cp]) with (percent cp ++ []).
    rewrite app_nil_r. apply Decode_percent_ascii. lia.
  - destruct (utf8_code_point_octets cp Hs Hge) as (b & bs & Heq & Hn & Hl & Hv).
    assert (Hoct : Forall octet (b :: bs)).
    { rewrite <- Heq. apply utf8_octets_octet. apply Hs. }
    rewrite Heq. inversion Hoct; subst.
    by apply Decode_percent_multi.
Qed.

Lemma UTF16_pair c d :
  is_leading_surrogate c = true → is_trailing_surrogate d = true →
  scalar (UTF16SurrogatePairToCodePoint c d)
  ∧ UTF16EncodeCodePoint (UTF16SurrogatePairToCodePoint c d) = [c; d].
Proof.
  unfold is_leading_surrogate, is_trailing_surrogate, scalar,
    UTF16SurrogatePairToCodePoint, UTF16EncodeCodePoint.
  intros Hc Hd. apply andb_true_iff in Hc as [?%Z.leb_le ?%Z.leb_le].
  apply andb_true_iff in Hd as [?%Z.leb_le ?%Z.leb_le].
  split; [lia|].
  destruct (Z.leb_spec ((c - 0xD800) * 0x400 + (d - 0xDC00) + 0x10000) 0xFFFF); [lia|].
  f_equal; [|f_equal]; Z.div_mod_to_equations; lia.
Qed.

Lemma UTF16_unit c :
  0 ≤ c < 65536 → is_leading_surrogate c = false →
  is_trailing_surrogate c = false →
  scalar c ∧ UTF16EncodeCodePoint c = [c].
Proof.
  unfold is_leading_surrogate, is_trailing_surrogate, scalar, UTF16EncodeCodePoint.
  intros Hc Hl Ht. apply andb_false_iff in Hl. apply andb_false_iff in Ht.
  rewrite !Z.leb_gt in Hl, Ht.
  destruct (Z.leb_spec c 0xFFFF); [|lia]. split; [lia|reflexivity].
Qed.

Lemma unescaped_ascii c :
  unescaped c = true → c ≠ 37 ∧ c ≠ 47 ∧ 0 ≤ c < 128.
Proof.
  unfold unescaped, ascii_word, uri_mark. intros H.
  rewrite ?orb_true_iff, ?andb_true_iff, ?Z.leb_le, ?Z.eqb_eq in H. lia.
Qed.

Lemma length_percent_octets bs : length (percent_octets bs) = (3 * length bs)%nat.
Proof. induction bs; [reflexivity|]. rewrite percent_octets_cons, length_app, IHbs. simpl. lia. Qed.

Lemma utf8_octets_nonempty cp : (1 ≤ length (utf8_octets cp))%nat.
Proof. unfold utf8_octets. cases_cmp; simpl; lia. Qed.

(** Induction on a string one or two code units at a time. *)
Lemma js_string_ind2 (P : js_string → Prop) :
  P [] →
  (∀ c rest, P rest → (∀ d rest', rest = d :: rest' → P rest') → P (c :: rest)) →
  ∀ s, P s.
Proof.
  intros Hnil Hcons s.
  cut (P s ∧ ∀ d rest', s = d :: rest' → P rest'); [tauto|].
  induction s as [|c rest [IH1 IH2]]; [done|].
  split; [by apply Hcons|]. by intros ?? [= _ <-].
Qed.

(** Induction following the cases of [Encode]. *)
Lemma Encode_cases (P : js_string → js_string → Prop) :
  P [] [] →
  (∀ c rest e,
     unescaped c = true → Encode rest = Some e → P rest e →
     P (c :: rest) (c :: e)) →
  (∀ c d rest e,
     unescaped c = false →
     is_leading_surrogate c = true → is_trailing_surrogate d = true →
     Encode rest = Some e → P rest e →
     P (c :: d :: rest)
       (percent_octets (utf8_octets (UTF16SurrogatePairToCodePoint c d)) ++ e)) →
  (∀ c rest e,
     unescaped c = false →
     is_leading_surrogate c = false → is_trailing_surrogate c = false →
     Encode rest = Some e → P rest e →
     P (c :: rest) (percent_octets (utf8_octets c) ++ e)) →
  ∀ s e, Encode s = Some e → P s e.
Proof.
  intros Hnil Hun Hpair Hone s.
  induction s as [|c rest IH1 IH2] using js_string_ind2; intros e He.
  { by simplify_eq/=. }
  cbn [Encode] in He. destruct (unescaped c) eqn:Hc.
  { destruct (Encode rest) as [e'|] eqn:He'; simplify_eq/=. by apply Hun, IH1. }
  destruct (is_leading_surrogate c) eqn:Hlead.
  - destruct rest as [|d rest']; [done|].
    destruct (is_trailing_surrogate d) eqn:Htrail; [|done].
    destruct (Encode rest') as [e'|] eqn:He'; simplify_eq/=.
    apply Hpair; try done. by eapply IH2.
  - destruct (is_trailing_surrogate c) eqn:Htrail; [done|].
    destruct (Encode rest) as [e'|] eqn:He'; simplify_eq/=.
    apply Hone; try done. by apply IH1.
Qed.

(** Decoding undoes encoding, with any fuel that covers the encoded
    string. *)
Lemma Decode_Encode s e :
  Encode s = Some e → code_units s →
  ∀ fuel, (length e ≤ fuel)%nat → Decode fuel e = Some s.
Proof.
  revert s e.
  apply (Encode_cases (λ s e, code_units s →
           ∀ fuel, (length e ≤ fuel)%nat → Decode fuel e = Some s));
    [|intros c rest e Hc He IH|intros c d rest e Hc Hlead Htrail He IH
     |intros c rest e Hc Hlead Htrail He IH]; intros Hcu fuel Hfuel.
  - apply Decode_nil.
  - apply Forall_cons in Hcu as [_ Hcu]. simpl in Hfuel.
    destruct fuel as [|fuel]; [lia|].
    apply unescaped_ascii in Hc as (Hne & _ & _).
    rewrite Decode_unfold. destruct (Z.eqb_spec c 37); [done|].
    rewrite IH; [done|done|lia].
  - apply Forall_cons in Hcu as [_ [_ Hcu]%Forall_cons].
    destruct (UTF16_pair c d Hlead Htrail) as [Hs Hu].
    rewrite length_app, length_percent_octets in Hfuel.
    pose proof (utf8_octets_nonempty (UTF16SurrogatePairToCodePoint c d)).
    destruct fuel as [|fuel]; [lia|].
    rewrite Decode_code_point, Hu by done. rewrite IH; [done|done|lia].
  - apply Forall_cons in Hcu as [Hcc Hcu].
    destruct (UTF16_unit c Hcc Hlead Htrail) as [Hs Hu].
    rewrite length_app, length_percent_octets in Hfuel.
    pose proof (utf8_octets_nonempty c).
    destruct fuel as [|fuel]; [lia|].
    rewrite Decode_code_point, Hu by done. rewrite IH; [done|done|lia].
Qed.

Lemma decode_encode s e :
  code_units s → URI.encodeURIComponent s = Some e →
  decodeURIComponent e = Some s.
Proof.
  intros Hcu He. unfold decodeURIComponent. by apply Decode_Encode.
Qed.

(** The encoded string has no ['/']. *)
Lemma percent_octets_no_slash bs :
  Forall octet bs → Forall (λ c, c ≠ 47) (percent_octets bs).
Proof.
  induction 1 as [|b bs Hb _ IH]; [constructor|].
  rewrite percent_octets_cons. apply Forall_app. split; [|done].
  unfold octet in Hb. unfold percent.
  assert (0 ≤ b / 16 < 16) as H1%hex_digit_range by (Z.div_mod_to_equations; lia).
  assert (0 ≤ b mod 16 < 16) as H2%hex_digit_range by (Z.div_mod_to_equations; lia).
  repeat constructor; lia.
Qed.

Lemma Encode_no_slash s e :
  Encode s = Some e → code_units s → Forall (λ c, c ≠ 47) e.
Proof.
  revert s e.
  apply (Encode_cases (λ s e, code_units s → Forall (λ c, c ≠ 47) e));
    [|intros c rest e Hc He IH|intros c d rest e Hc Hlead Htrail He IH
     |intros c rest e Hc Hlead Htrail He IH]; intros Hcu.
  - constructor.
  - apply Forall_cons in Hcu as [_ Hcu].
    apply unescaped_ascii in Hc as (_ & Hne & _). constructor; auto.
  - apply Forall_cons in Hcu as [_ [_ Hcu]%Forall_cons].
    destruct (UTF16_pair c d Hlead Htrail) as [[Hs _] _].
    apply Forall_app. split; [|auto].
    by apply percent_octets_no_slash, utf8_octets_octet.
  - apply Forall_cons in Hcu as [Hcc Hcu].
    apply Forall_app. split; [|auto].
    apply percent_octets_no_slash, utf8_octets_octet. lia.
Qed.

Lemma after_last_slash_none acc s :
  Forall (λ c, c ≠ 47) s → after_last_slash acc s = acc.
Proof.
  intros Hs. revert acc. induction Hs as [|c s Hc _ IH]; intros acc; [done|].
  simpl. destruct (Z.eqb_spec c 47); [done|]. apply IH.
Qed.

Lemma last_path_segment_app base e :
  Forall (λ c, c ≠ 47) e → last_path_segment (base ++ js "/" ++ e) = e.
Proof.
  intros He. unfold last_path_segment.
  change (js "/" ++ e) with (47 :: e).
  generalize (base ++ 47 :: e) at 1. induction base as [|c base IH]; intros acc.
  - simpl. by apply after_last_slash_none.
  - simpl. destruct (c =? 47); apply IH.
Qed.

(** A well-formed string always has an encoding. *)
Lemma Encode_total s : isWellFormed s = true → is_Some (Encode s).
Proof.
  induction s as [|c rest IH1 IH2] using js_string_ind2; intros Hwf; [by eexists|].
  cbn [Encode isWellFormed] in *.
  destruct (unescaped c) eqn:Hc.
  - apply unescaped_ascii in Hc as (_ & _ & Hc).
    assert (is_leading_surrogate c = false) as Hl
      by (unfold is_leading_surrogate; cases_cmp; simpl; lia).
    rewrite Hl in Hwf. apply andb_true_iff in Hwf as [_ Hwf].
    destruct (IH1 Hwf) as [e ->]. by eexists.
  - destruct (is_leading_surrogate c).
    + destruct rest as [|d rest']; [done|].
      apply andb_true_iff in Hwf as [-> Hwf].
      destruct (IH2 _ _ eq_refl Hwf) as [e ->]. by eexists.
    + apply andb_true_iff in Hwf as [->%negb_true_iff Hwf].
      destruct (IH1 Hwf) as [e ->]. by eexists.
Qed.

(** The round trip through the last segment of a public URL. *)
Lemma decode_public_url base s e :
  code_units s → URI.encodeURIComponent s = Some e →
  decodeURIComponent (last_path_segment (base ++ js "/" ++ e)) = Some s.
Proof.
  intros Hcu He. rewrite last_path_segment_app by by eapply Encode_no_slash.
  by apply decode_encode.
Qed.

End URIFacts.

(** ** The handlers *)

Lemma js_nonempty_or_default a b : b ≠ [] → or_default a b ≠ [].
Proof. intros Hb. unfold or_default. destruct a; [case_bool_decide|]; done. Qed.

Lemma code_units_js s : code_units (js s).
Proof.
  unfold code_units, js. apply Forall_fmap, Forall_forall. intros a _. simpl.
  pose proof (Ascii.nat_ascii_bounded a). lia.
Qed.

Lemma head_no_fault (faults : list (option Error)) e :
  Forall (λ f, f = None) faults → head faults = Some (Some e) → False.
Proof. destruct 1; naive_solver. Qed.

Lemma tail_no_fault (faults : list (option Error)) :
  Forall (λ f, f = None) faults → Forall (λ f, f = None) (tail faults).
Proof. destruct 1; [constructor|done]. Qed.

(** C7: a request to generate-upload-url or generate-download-url whose
    body has no filename, or an empty one, gets the HTTP 400 response
    at once, and the world is left as it was: nothing is added to the
    trace, so no signing call is made and the store is not contacted. *)
Theorem missing_filename_is_rejected_locally w req_body :
  req_body !! "filename" = None ∨ req_body !! "filename" = Some (JStr []) →
  generate_upload_url req_body w
  = (inr (status_json 400 [("error", JStr (js "Filename is required"))]), w)
  ∧ generate_download_url req_body w
    = (inr (status_json 400 [("error", JStr (js "Filename is required"))]), w).
Proof.
  intros H.
  assert (ToBoolean (field req_body "filename") = false) as Hf.
  { unfold field. by destruct H as [-> | ->]. }
  destruct w. run_handler. rewrite Hf. done.
Qed.

(** C10: in [POST /upload], when the staged file is absent from the disk
    or reading it throws, the request gets the HTTP 500 failure response,
    no command is sent to the store and the bucket is unchanged. *)
Theorem upload_no_put_before_read w file :
  disk w !! path file = None ∨ is_Some (read_fault w (path file)) →
  ∃ r w' evs,
    upload (Some file) w = (inr r, w')
    ∧ status r = 500%Z
    ∧ body r !! "success" = Some (JBool false)
    ∧ trace w' = trace w ++ evs
    ∧ sent_commands evs = []
    ∧ bucket w' = bucket w.
Proof.
  intros H. destruct w. run_handler. repeat branch.
  all: try (destruct H as [H | H]; contradictory).
  all: eexists _, _, _; (split; [reflexivity|]); cbv beta iota zeta.
  all: do 2 (split; [reflexivity|]).
  all: split; [rewrite <- ?app_assoc; reflexivity|].
  all: split; reflexivity.
Qed.

(** C3: every [POST /upload] whose file is staged on the disk (under the
    non-empty path multer gives it) returns a response after attempting
    to delete the temporary file, whether it succeeds or fails; when no
    delete faults, the file is no longer on the disk. *)
Theorem upload_deletes_temporary_file w file :
  path file ≠ [] → is_Some (disk w !! path file) →
  ∃ r w' evs,
    upload (Some file) w = (inr r, w')
    ∧ trace w' = trace w ++ evs
    ∧ path file ∈ unlink_attempts evs
    ∧ (Forall (λ f, f = None) (unlink_faults w) → disk w' !! path file = None).
Proof.
  intros Hp [buf Hd]. destruct w as [? ? dsk ? ? ? ? faults ?].
  run_handler. cbn [ToBoolean]. rewrite Hd. cbv beta iota zeta.
  repeat branch.
  all: try contradictory.
  all: eexists _, _, _; (split; [reflexivity|]); cbv beta iota zeta.
  all: split; [rewrite <- ?app_assoc; reflexivity|].
  all: split; [cbn; set_solver|].
  all: intros Hok; try apply lookup_delete_eq.
  all: exfalso; eauto using head_no_fault, tail_no_fault.
Qed.

(** C8: every signing request of the gateway has [expiresIn] 3600 and is
    for one command on one key: generate-upload-url signs at most one
    PutObjectCommand, generate-download-url at most one GetObjectCommand,
    each with the filename of the body as [Key] (none when the filename is
    missing), and [POST /upload] signs nothing; the [presignedUrl] of a
    response is what the signer returned for that command and expiry. *)
Theorem signing_requests_expiry_and_scope w req_body req_file :
  (∃ r w' evs,
     generate_upload_url req_body w = (inr r, w')
     ∧ trace w' = trace w ++ evs
     ∧ sign_requests evs
       = (if ToBoolean (field req_body "filename")
          then [(upload_command w req_body, 3600%Z)] else [])
     ∧ ∀ url, body r !! "presignedUrl" = Some (JStr url) →
              presigner w (upload_command w req_body) 3600 = inr url)
  ∧ (∃ r w' evs,
       generate_download_url req_body w = (inr r, w')
       ∧ trace w' = trace w ++ evs
       ∧ sign_requests evs
         = (if ToBoolean (field req_body "filename")
            then [(download_command w req_body, 3600%Z)] else [])
       ∧ ∀ url, body r !! "presignedUrl" = Some (JStr url) →
                presigner w (download_command w req_body) 3600 = inr url)
  ∧ (∃ r w' evs,
       upload req_file w = (inr r, w')
       ∧ trace w' = trace w ++ evs
       ∧ sign_requests evs = []).
Proof.
  destruct w. unfold upload_command, download_command. split; [|split].
  - run_handler. destruct (ToBoolean (field req_body "filename")) eqn:Hf;
      cbv beta iota zeta; cbn [negb]; repeat branch.
    all: eexists _, _, _; (split; [reflexivity|]); cbv beta iota zeta.
    all: split; [rewrite <- ?app_assoc; try reflexivity; by rewrite app_nil_r|].
    all: split; [reflexivity|].
    all: intros url Hurl; vm_compute in Hurl; congruence.
  - run_handler. destruct (ToBoolean (field req_body "filename")) eqn:Hf;
      cbv beta iota zeta; cbn [negb]; repeat branch.
    all: eexists _, _, _; (split; [reflexivity|]); cbv beta iota zeta.
    all: split; [rewrite <- ?app_assoc; try reflexivity; by rewrite app_nil_r|].
    all: split; [reflexivity|].
    all: intros url Hurl; vm_compute in Hurl; congruence.
  - destruct req_file as [file|]; run_handler; repeat branch.
    all: eexists _, _, _; (split; [reflexivity|]); cbv beta iota zeta.
    all: split; [rewrite <- ?app_assoc; try reflexivity; by rewrite app_nil_r|].
    all: reflexivity.
Qed.

(** C9: the response of generate-upload-url depends only on the
    [filename] and [contentType] properties of the body, on the
    configuration ([R2_BUCKET], [R2_PUBLIC_URL]) and on the signer: two
    bodies that agree on the two properties get the same response,
    whatever else they hold and whatever the rest of the world is. *)
Theorem generate_upload_url_reads_two_fields w1 w2 b1 b2 :
  b1 !! "filename" = b2 !! "filename" →
  b1 !! "contentType" = b2 !! "contentType" →
  R2_BUCKET w1 = R2_BUCKET w2 →
  R2_PUBLIC_URL w1 = R2_PUBLIC_URL w2 →
  (∀ command expiresIn,
     presigner w1 command expiresIn = presigner w2 command expiresIn) →
  (generate_upload_url b1 w1).1 = (generate_upload_url b2 w2).1.
Proof.
  intros Hf Hc Hb Hu Hp. destruct w1, w2. simpl in Hb, Hu, Hp. subst.
  run_handler. unfold field. rewrite Hf, Hc.
  destruct (ToBoolean (default JUndefined (b2 !! "filename")));
    cbv beta iota zeta; cbn [negb]; rewrite ?Hp; repeat branch; reflexivity.
Qed.

Lemma js_literal_nonempty a s : js (String a s) ≠ [].
Proof. done. Qed.

(** The response has one of the three shapes. *)
Ltac response_shape :=
  first
    [ left; by repeat split
    | right; left; split; [reflexivity|]; split; [reflexivity|];
      eexists; split; [|reflexivity];
      first [apply js_literal_nonempty
            |apply js_nonempty_or_default, js_literal_nonempty]
    | right; right; split; [reflexivity|]; split; [reflexivity|];
      eexists; split; [|reflexivity]; apply js_literal_nonempty ].

(** C1, as amended: every response of the three handlers is a success
    (200, [success: true], no [error]), a server failure (500,
    [success: false] and a non-empty [error] message) or a client failure
    (400, a non-empty [error] message and no [success] property).  So
    every failure response carries an error message, and [success: false]
    comes with it on the 500 responses only. *)
Theorem failure_responses_carry_error w req_body req_file :
  (∃ r w', generate_upload_url req_body w = (inr r, w')
           ∧ (success_response r ∨ server_error_response r
              ∨ client_error_response r))
  ∧ (∃ r w', generate_download_url req_body w = (inr r, w')
             ∧ (success_response r ∨ server_error_response r
                ∨ client_error_response r))
  ∧ (∃ r w', upload req_file w = (inr r, w')
             ∧ (success_response r ∨ server_error_response r
                ∨ client_error_response r)).
Proof.
  destruct w. split; [|split].
  - run_handler. destruct (ToBoolean (field req_body "filename"));
      cbv beta iota zeta; cbn [negb]; repeat branch.
    all: eexists _, _; (split; [reflexivity|]); response_shape.
  - run_handler. destruct (ToBoolean (field req_body "filename"));
      cbv beta iota zeta; cbn [negb]; repeat branch.
    all: eexists _, _; (split; [reflexivity|]); response_shape.
  - destruct req_file as [file|]; run_handler; cbn [ToBoolean]; repeat branch.
    all: eexists _, _; (split; [reflexivity|]); response_shape.
Qed.

(** C1 as stated fails: the 400 response to a body without filename has
    no [success] property. *)
Lemma missing_filename_response_has_no_success :
  ∃ r w', generate_upload_url ∅ world0 = (inr r, w')
          ∧ status r = 400%Z
          ∧ body r !! "success" = None
          ∧ body r !! "success" ≠ Some (JBool false).
Proof. eexists _, _. split; [reflexivity|]. by vm_compute. Qed.

(** C2, the behaviour of the code at the failing input: when the file is
    read and the store accepts the write, a fault of the [unlinkSync] that
    follows is caught by the handler's own [catch]: the request gets the
    HTTP 500 failure response with the message of the delete fault,
    although the object is in the bucket. *)
Theorem upload_unlink_fault_after_put w file buffer e :
  disk w !! path file = Some buffer →
  read_fault w (path file) = None →
  send_fault w (PutObjectCommand (upload_params w file buffer)) = None →
  head (unlink_faults w) = Some (Some e) →
  ∃ w', upload (Some file) w
        = (inr (status_json 500
                  [("success", JBool false);
                   ("error", JStr (or_default (Some (message e))
                                     (js "Upload failed")))]), w')
        ∧ bucket w' !! originalname file
          = Some {| data := buffer; content_type := JStr (mimetype file) |}.
Proof.
  intros Hd Hr Hs Hu. destruct w. unfold upload_params in *. simpl in *.
  run_handler. cbn [ToBoolean]. repeat branch.
  all: simplify_eq; try contradictory.
  all: eexists; (split; [reflexivity|]); apply lookup_insert_eq.
Qed.

(** C4, as amended: for every non-empty filename that is a well-formed
    UTF-16 string and any contentType, when the signing call returns a
    URL, generate-upload-url answers 200 with [success: true], that
    presigned URL, and [publicUrl] equal to the base URL ([R2_PUBLIC_URL],
    or the built-in default when it is unset or empty), a ['/'] and the
    percent-encoded filename. *)
Theorem generate_upload_url_public_url w req_body fn url :
  req_body !! "filename" = Some (JStr fn) →
  fn ≠ [] →
  isWellFormed fn = true →
  presigner w (upload_command w req_body) 3600 = inr url →
  ∃ enc r w',
    URI.encodeURIComponent fn = Some enc
    ∧ generate_upload_url req_body w = (inr r, w')
    ∧ status r = 200%Z
    ∧ body r !! "success" = Some (JBool true)
    ∧ body r !! "presignedUrl" = Some (JStr url)
    ∧ body r !! "publicUrl" = Some (JStr (base_url w ++ js "/" ++ enc)).
Proof.
  intros Hfn Hne Hwf Hsign.
  destruct (URIFacts.Encode_total fn Hwf) as [enc Henc]. exists enc.
  destruct w. unfold upload_command, base_url, field in *. simpl in Hsign.
  run_handler. unfold field, URI.encodeURIComponent.
  rewrite Hfn in *. cbn [default from_option id ToBoolean ToString] in *.
  destruct (bool_decide_reflect (fn = [])); [done|].
  cbv beta iota zeta. cbn [negb]. rewrite Hsign. cbv beta iota zeta.
  rewrite Henc. cbv beta iota zeta.
  eexists _, _. split; [done|]. split; [reflexivity|]. by repeat split.
Qed.

(** C4 as stated fails: a non-empty filename with an unpaired surrogate
    gets the 500 response and no [publicUrl] although signing succeeds,
    and so does any filename when the signing call throws. *)
Lemma generate_upload_url_not_always_success :
  (∃ r w',
     generate_upload_url {[ "filename" := JStr [0xD800%Z] ]} world0 = (inr r, w')
     ∧ status r = 500%Z
     ∧ body r !! "success" = Some (JBool false)
     ∧ body r !! "publicUrl" = None)
  ∧ (∃ r w',
       generate_upload_url body0 world_sign_fails = (inr r, w')
       ∧ status r = 500%Z
       ∧ body r !! "success" = Some (JBool false)
       ∧ body r !! "publicUrl" = None).
Proof.
  split; eexists _, _; (split; [by vm_compute|]); by vm_compute.
Qed.

(** The value of a property of a response body listed in the goal. *)
Ltac body_property H key :=
  first
    [ by vm_compute in H
    | match type of H with
      | context [(key, JStr ?u)] =>
        let Hb := fresh in
        match type of H with
        | ?lhs = _ => assert (lhs = Some (JStr u)) as Hb by reflexivity
        end;
        rewrite Hb in H; injection H as <-
      end ].

(** C5: percent-encoding is reversible.  For every filename made of 16-bit
    code units (spaces, reserved characters and non-ASCII characters
    included), percent-decoding the part after the last ['/'] of the
    public URL the gateway produces gives back exactly the filename.
    First and second part: this holds of every [publicUrl] that
    generate-upload-url returns and of every [video_url] that
    [POST /upload] returns.  Third and fourth part: the handlers do return
    such a URL: generate-upload-url for every non-empty well-formed
    filename when signing succeeds, [POST /upload] for every well-formed
    original name when the file is read, the write is accepted and the
    delete does not fault. *)
Theorem public_url_decodes_to_filename :
  (∀ w req_body fn r w' url,
     code_units fn →
     req_body !! "filename" = Some (JStr fn) →
     generate_upload_url req_body w = (inr r, w') →
     body r !! "publicUrl" = Some (JStr url) →
     URI.decodeURIComponent (URI.last_path_segment url) = Some fn)
  ∧ (∀ w file r w' url,
       code_units (originalname file) →
       upload (Some file) w = (inr r, w') →
       body r !! "video_url" = Some (JStr url) →
       URI.decodeURIComponent (URI.last_path_segment url)
       = Some (originalname file))
  ∧ (∀ w req_body fn signed,
       code_units fn →
       req_body !! "filename" = Some (JStr fn) →
       fn ≠ [] →
       isWellFormed fn = true →
       presigner w (upload_command w req_body) 3600 = inr signed →
       ∃ r w' url,
         generate_upload_url req_body w = (inr r, w')
         ∧ body r !! "publicUrl" = Some (JStr url)
         ∧ URI.decodeURIComponent (URI.last_path_segment url) = Some fn)
  ∧ (∀ w file buffer,
       code_units (originalname file) →
       disk w !! path file = Some buffer →
       read_fault w (path file) = None →
       send_fault w (PutObjectCommand (upload_params w file buffer)) = None →
       no_fault (head (unlink_faults w)) →
       isWellFormed (originalname file) = true →
       ∃ r w' url,
         upload (Some file) w = (inr r, w')
         ∧ body r !! "video_url" = Some (JStr url)
         ∧ URI.decodeURIComponent (URI.last_path_segment url)
           = Some (originalname file)).
Proof.
  split; [|split; [|split]].
  - intros w req_body fn r w' url Hcu Hfn Hrun Hurl. destruct w.
    revert Hrun. run_handler. unfold field. rewrite Hfn.
    cbn [default from_option id ToBoolean ToString].
    destruct (bool_decide_reflect (fn = [])); cbv beta iota zeta; cbn [negb];
      repeat branch; intros [= <- <-].
    all: body_property Hurl "publicUrl".
    by apply URIFacts.decode_public_url.
  - intros w file r w' url Hcu Hrun Hurl. destruct w.
    revert Hrun. run_handler. cbn [ToBoolean ToString].
    repeat branch; intros [= <- <-].
    all: body_property Hurl "video_url".
    all: by apply URIFacts.decode_public_url.
  - intros w req_body fn signed Hcu Hfn Hne Hwf Hsign.
    destruct (URIFacts.Encode_total fn Hwf) as [enc Henc].
    destruct w. unfold upload_command, field in *. simpl in Hsign.
    run_handler. unfold field, URI.encodeURIComponent in *.
    rewrite Hfn in *. cbn [default from_option id ToBoolean ToString] in *.
    destruct (bool_decide_reflect (fn = [])); [done|].
    cbv beta iota zeta. cbn [negb]. rewrite Hsign. cbv beta iota zeta.
    rewrite Henc. cbv beta iota zeta.
    eexists _, _, _. split; [reflexivity|]. split; [reflexivity|].
    by apply URIFacts.decode_public_url.
  - intros w file buffer Hcu Hd Hr Hs Hu Hwf.
    destruct (URIFacts.Encode_total _ Hwf) as [enc Henc].
    destruct w. unfold upload_params, no_fault in *. simpl in *.
    run_handler. cbn [ToBoolean ToString].
    unfold URI.encodeURIComponent in *.
    repeat branch.
    all: destruct Hu; simplify_eq; try contradictory.
    all: eexists _, _, _; split; [reflexivity|]; split; [reflexivity|].
    all: by apply URIFacts.decode_public_url.
Qed.

(** X20: every 200 response of [POST /upload] is exactly
    [{success: true, video_url, thumbnail_url: '', duration: '', message}],
    where [video_url] is the base URL, a ['/'] and the percent-encoded
    original name (first part); and the handler gives that response when
    the file is staged and read, the store accepts the write, the delete
    does not fault and the original name is a well-formed string (second
    part). *)
Theorem upload_success_response :
  (∀ w file r w',
     upload (Some file) w = (inr r, w') →
     status r = 200%Z →
     ∃ enc,
       URI.encodeURIComponent (originalname file) = Some enc
       ∧ r = json [("success", JBool true);
                   ("video_url", JStr (base_url w ++ js "/" ++ enc));
                   ("thumbnail_url", JStr []);
                   ("duration", JStr []);
                   ("message", JStr (js "Video uploaded successfully"))])
  ∧ (∀ w file buffer,
       disk w !! path file = Some buffer →
       read_fault w (path file) = None →
       send_fault w (PutObjectCommand (upload_params w file buffer)) = None →
       no_fault (head (unlink_faults w)) →
       isWellFormed (originalname file) = true →
       ∃ enc w',
         URI.encodeURIComponent (originalname file) = Some enc
         ∧ upload (Some file) w
           = (inr (json [("success", JBool true);
                         ("video_url", JStr (base_url w ++ js "/" ++ enc));
                         ("thumbnail_url", JStr []);
                         ("duration", JStr []);
                         ("message", JStr (js "Video uploaded successfully"))]),
              w')).
Proof.
  split.
  - intros w file r w' Hrun Hst. destruct w. unfold base_url. simpl.
    revert Hrun. run_handler. cbn [ToBoolean ToString].
    unfold URI.encodeURIComponent.
    repeat branch; intros [= <- <-]; try discriminate Hst.
    all: eexists; split; reflexivity.
  - intros w file buffer Hd Hr Hs Hu Hwf.
    destruct (URIFacts.Encode_total _ Hwf) as [enc Henc]. exists enc.
    destruct w. unfold upload_params, base_url, no_fault in *. simpl in *.
    run_handler. cbn [ToBoolean ToString]. unfold URI.encodeURIComponent.
    repeat branch.
    all: destruct Hu; simplify_eq; try contradictory.
    all: eexists; split; reflexivity.
Qed.

(** C6, the behaviour of the code at the failing input: with the file
    staged and read and the store write accepted, which are the
    conditions under which the upload has succeeded, a fault of the
    unguarded [unlinkSync] that follows makes the handler answer 500 with
    [success: false] and none of [video_url], [thumbnail_url] and
    [duration], although the object is in the bucket. *)
Theorem upload_accepted_write_answered_as_failure w file buffer e :
  disk w !! path file = Some buffer →
  read_fault w (path file) = None →
  send_fault w (PutObjectCommand (upload_params w file buffer)) = None →
  head (unlink_faults w) = Some (Some e) →
  ∃ r w',
    upload (Some file) w = (inr r, w')
    ∧ status r = 500%Z
    ∧ body r !! "success" = Some (JBool false)
    ∧ body r !! "video_url" = None
    ∧ body r !! "thumbnail_url" = None
    ∧ body r !! "duration" = None
    ∧ bucket w' !! originalname file
      = Some {| data := buffer; content_type := JStr (mimetype file) |}.
Proof.
  intros Hd Hr Hs Hu. destruct w. unfold upload_params in *. simpl in *.
  run_handler. cbn [ToBoolean]. repeat branch.
  all: simplify_eq; try contradictory.
  all: eexists _, _; (split; [reflexivity|]); cbv beta iota zeta.
  all: do 5 (split; [reflexivity|]); apply lookup_insert_eq.
Qed.

(** On the failure path a fault of the cleanup is swallowed: when the read
    or the store write throws, the response is the same whatever the
    deletes do. *)
Lemma upload_cleanup_fault_swallowed w file faults1 faults2 :
  is_Some (read_fault w (path file))
  ∨ (∃ buffer, disk w !! path file = Some buffer
       ∧ is_Some (send_fault w (PutObjectCommand (upload_params w file buffer)))) →
  (upload (Some file) (set_unlink_faults faults1 w)).1
  = (upload (Some file) (set_unlink_faults faults2 w)).1.
Proof.
  intros H. destruct w. unfold upload_params in H. simpl in H.
  run_handler. cbn [ToBoolean]. repeat branch.
  all: try reflexivity.
  all: destruct H as [H | (buffer & Hd & H)]; simplify_eq; contradictory.
Qed.

(** ** Instances *)

Lemma missing_filename_witness :
  generate_upload_url ∅ world0
  = (inr (status_json 400 [("error", JStr (js "Filename is required"))]), world0)
  ∧ generate_download_url ∅ world0
    = (inr (status_json 400 [("error", JStr (js "Filename is required"))]), world0).
Proof. apply (missing_filename_is_rejected_locally world0 ∅). by left. Defined.

Lemma upload_no_put_witness :
  ∃ r w' evs,
    upload (Some {| path := js "uploads/gone"; originalname := js "a b.txt";
                    mimetype := js "text/plain" |}) world0 = (inr r, w')
    ∧ status r = 500%Z
    ∧ body r !! "success" = Some (JBool false)
    ∧ trace w' = trace world0 ++ evs
    ∧ sent_commands evs = []
    ∧ bucket w' = bucket world0.
Proof. apply upload_no_put_before_read. left. by vm_compute. Defined.

Lemma upload_deletes_witness :
  ∃ r w' evs,
    upload (Some file0) world0 = (inr r, w')
    ∧ trace w' = trace world0 ++ evs
    ∧ path file0 ∈ unlink_attempts evs
    ∧ (Forall (λ f, f = None) (unlink_faults world0) →
       disk w' !! path file0 = None).
Proof.
  apply upload_deletes_temporary_file; [by vm_compute|].
  eexists. by vm_compute.
Defined.

Lemma signing_requests_witness :
  ∃ r w' evs,
    generate_upload_url body1 world0 = (inr r, w')
    ∧ trace w' = trace world0 ++ evs
    ∧ sign_requests evs = [(upload_command world0 body1, 3600%Z)]
    ∧ body r !! "presignedUrl"
      = Some (JStr (js "https://r2.example/videos/key?X-Amz-Expires=3600")).
Proof.
  destruct (signing_requests_expiry_and_scope world0 body1 None)
    as [(r & w' & evs & Hrun & Htrace & Hsign & Hurl) _].
  exists r, w', evs. repeat split; [done|done|done|].
  vm_compute in Hrun. by injection Hrun as <- _.
Defined.

Lemma generate_upload_url_reads_two_fields_witness :
  (generate_upload_url body2 world0).1
  = (generate_upload_url body1 (set_disk ∅ world0)).1.
Proof. by apply generate_upload_url_reads_two_fields. Defined.

Lemma upload_unlink_fault_witness :
  ∃ w', upload (Some file0) (set_unlink_faults [Some EPERM] world0)
        = (inr (status_json 500
                  [("success", JBool false);
                   ("error", JStr (js "EPERM: operation not permitted, unlink"))]),
           w')
        ∧ bucket w' !! js "a b.txt"
          = Some {| data := [104; 105]%Z; content_type := JStr (js "text/plain") |}.
Proof.
  by apply (upload_unlink_fault_after_put
              (set_unlink_faults [Some EPERM] world0) file0 [104; 105]%Z EPERM).
Defined.

Lemma generate_upload_url_public_url_witness :
  ∃ r w',
    generate_upload_url body0 world0 = (inr r, w')
    ∧ status r = 200%Z
    ∧ body r !! "success" = Some (JBool true)
    ∧ body r !! "publicUrl"
      = Some (JStr (js "https://cdn.atulyaayurveda.shop/a%20b.txt")).
Proof.
  destruct (generate_upload_url_public_url world0 body0 (js "a b.txt")
              (js "https://r2.example/videos/key?X-Amz-Expires=3600"))
    as (enc & r & w' & Henc & Hrun & Hst & Hsucc & _ & Hpub); try done.
  exists r, w'. repeat split; try done.
  vm_compute in Henc. injection Henc as <-. exact Hpub.
Defined.

Lemma public_url_decodes_witness :
  (∃ r w' url,
     generate_upload_url {[ "filename" := JStr filename1 ]} world0 = (inr r, w')
     ∧ body r !! "publicUrl" = Some (JStr url)
     ∧ URI.decodeURIComponent (URI.last_path_segment url) = Some filename1)
  ∧ (∃ r w' url,
       upload (Some file0) world0 = (inr r, w')
       ∧ body r !! "video_url" = Some (JStr url)
       ∧ URI.decodeURIComponent (URI.last_path_segment url)
         = Some (originalname file0)).
Proof.
  destruct public_url_decodes_to_filename as (_ & _ & Hgen & Hup). split.
  - apply (Hgen world0 {[ "filename" := JStr filename1 ]} filename1
             (js "https://r2.example/videos/key?X-Amz-Expires=3600")).
    + unfold code_units, filename1. repeat (constructor; [lia|]). constructor.
    + reflexivity.
    + by vm_compute.
    + by vm_compute.
    + by vm_compute.
  - apply (Hup world0 file0 [104; 105]%Z).
    + apply code_units_js.
    + by vm_compute.
    + by vm_compute.
    + by vm_compute.
    + by left.
    + by vm_compute.
Defined.

Lemma upload_success_witness :
  ∃ w', upload (Some file0) world0
        = (inr (json [("success", JBool true);
                      ("video_url",
                       JStr (js "https://cdn.atulyaayurveda.shop/a%20b.txt"));
                      ("thumbnail_url", JStr []);
                      ("duration", JStr []);
                      ("message", JStr (js "Video uploaded successfully"))]),
           w')
        ∧ ∀ r w'',
            upload (Some file0) world0 = (inr r, w'') → status r = 200%Z →
            body r !! "video_url"
            = Some (JStr (js "https://cdn.atulyaayurveda.shop/a%20b.txt")).
Proof.
  destruct upload_success_response as [Honly Hgives].
  destruct (Hgives world0 file0 [104; 105]%Z)
    as (enc & w' & Henc & Hrun); try done; [by left|].
  vm_compute in Henc. injection Henc as <-.
  exists w'. split; [exact Hrun|].
  intros r w'' Hrun' Hst.
  destruct (Honly world0 file0 r w'' Hrun' Hst) as (enc & Henc & ->).
  vm_compute in Henc. by injection Henc as <-.
Defined.

Lemma upload_accepted_write_witness :
  ∃ r w',
    upload (Some file0) (set_unlink_faults [Some EPERM] world0) = (inr r, w')
    ∧ status r = 500%Z
    ∧ body r !! "success" = Some (JBool false)
    ∧ body r !! "video_url" = None
    ∧ bucket w' !! js "a b.txt"
      = Some {| data := [104; 105]%Z; content_type := JStr (js "text/plain") |}.
Proof.
  destruct (upload_accepted_write_answered_as_failure
              (set_unlink_faults [Some EPERM] world0) file0 [104; 105]%Z EPERM)
    as (r & w' & Hrun & Hst & Hsucc & Hurl & _ & _ & Hb); try by vm_compute.
  by exists r, w'.
Defined.

(** ** More on percent-encoding *)

Module EncodeFacts.
Import URI URIFacts.
Local Open Scope Z_scope.

Lemma unescaped_not_surrogate c :
  unescaped c = true →
  is_leading_surrogate c = false ∧ is_trailing_surrogate c = false.
Proof.
  intros (_ & _ & Hc)%unescaped_ascii.
  unfold is_leading_surrogate, is_trailing_surrogate.
  split; apply andb_false_iff; left; apply Z.leb_gt; lia.
Qed.

(** Only a well-formed string has an encoding. *)
Lemma Encode_well_formed s e : Encode s = Some e → isWellFormed s = true.
Proof.
  revert s e. apply (Encode_cases (λ s _, isWellFormed s = true));
    [done|intros c rest e Hc He IH|intros c d rest e Hc Hlead Htrail He IH
     |intros c rest e Hc Hlead Htrail He IH]; cbn [isWellFormed].
  - destruct (unescaped_not_surrogate c Hc) as [-> ->]. by rewrite IH.
  - by rewrite Hlead, Htrail, IH.
  - by rewrite Hlead, Htrail, IH.
Qed.

(** X1: [encodeURIComponent] returns a string exactly for the well-formed
    strings (those [isWellFormed] accepts) and throws URIError for every
    string with an unpaired surrogate. *)
Theorem Encode_defined_iff_well_formed s :
  is_Some (URI.encodeURIComponent s) ↔ isWellFormed s = true.
Proof.
  split; [intros [e He]; by eapply Encode_well_formed|apply Encode_total].
Qed.

(** X2: under one base URL two different filenames never get the same
    public URL: equal public URLs come from equal filenames. *)
Theorem public_url_injective base s1 s2 e1 e2 :
  code_units s1 → code_units s2 →
  URI.encodeURIComponent s1 = Some e1 →
  URI.encodeURIComponent s2 = Some e2 →
  base ++ js "/" ++ e1 = base ++ js "/" ++ e2 →
  s1 = s2.
Proof.
  intros Hc1 Hc2 He1 He2 Heq. apply app_inv_head in Heq.
  injection Heq as <-.
  pose proof (Decode_Encode s1 e1 He1 Hc1 (length e1) (Nat.le_refl _)) as H1.
  pose proof (Decode_Encode s2 e1 He2 Hc2 (length e1) (Nat.le_refl _)) as H2.
  congruence.
Qed.

Lemma percent_octets_alphabet bs :
  Forall octet bs →
  Forall (λ c, unescaped c = true ∨ c = 37) (percent_octets bs).
Proof.
  induction 1 as [|b bs Hb _ IH]; [constructor|].
  rewrite percent_octets_cons. apply Forall_app. split; [|done].
  unfold octet in Hb. unfold percent.
  assert (∀ d, 0 ≤ d < 16 → unescaped (hex_digit d) = true) as Hhex.
  { intros d Hd. apply hex_digit_range in Hd.
    unfold unescaped, ascii_word.
    rewrite ?orb_true_iff, ?andb_true_iff, ?Z.leb_le. lia. }
  constructor; [by right|].
  constructor; [left; apply Hhex; Z.div_mod_to_equations; lia|].
  constructor; [left; apply Hhex; Z.div_mod_to_equations; lia|constructor].
Qed.

(** X3: every code unit of an encoded filename is an unreserved
    character (ASCII letter, digit or one of [-_.!~*'()]) or ['%']. *)
Theorem Encode_alphabet s e :
  code_units s → URI.encodeURIComponent s = Some e →
  Forall (λ c, unescaped c = true ∨ c = 37) e.
Proof.
  intros Hcu He. revert s e He Hcu.
  apply (Encode_cases (λ s e, code_units s →
           Forall (λ c, unescaped c = true ∨ c = 37) e));
    [|intros c rest e Hc He IH|intros c d rest e Hc Hlead Htrail He IH
     |intros c rest e Hc Hlead Htrail He IH]; intros Hcu.
  - constructor.
  - apply Forall_cons in Hcu as [_ Hcu]. constructor; auto.
  - apply Forall_cons in Hcu as [_ [_ Hcu]%Forall_cons].
    destruct (UTF16_pair c d Hlead Htrail) as [[Hs _] _].
    apply Forall_app. split; [|auto].
    by apply percent_octets_alphabet, utf8_octets_octet.
  - apply Forall_cons in Hcu as [Hcc Hcu].
    apply Forall_app. split; [|auto].
    apply percent_octets_alphabet, utf8_octets_octet. lia.
Qed.

(** X4: a filename made of unreserved characters only is encoded as
    itself. *)
Theorem Encode_unescaped_verbatim s :
  Forall (λ c, unescaped c = true) s → URI.encodeURIComponent s = Some s.
Proof.
  unfold URI.encodeURIComponent.
  induction 1 as [|c s Hc _ IH]; [done|]. cbn [Encode]. by rewrite Hc, IH.
Qed.

Lemma utf8_octets_length cp :
  (1 ≤ length (utf8_octets cp) ≤ 4)%nat
  ∧ (cp < 0x10000 → (length (utf8_octets cp) ≤ 3)%nat).
Proof. unfold utf8_octets. cases_cmp; simpl; lia. Qed.

(** X5: the encoded filename is at least as long as the filename and at
    most nine times as long. *)
Theorem Encode_length s e :
  code_units s → URI.encodeURIComponent s = Some e →
  (length s ≤ length e ≤ 9 * length s)%nat.
Proof.
  intros Hcu He. revert s e He Hcu.
  apply (Encode_cases (λ s e, code_units s →
           (length s ≤ length e ≤ 9 * length s)%nat));
    [|intros c rest e Hc He IH|intros c d rest e Hc Hlead Htrail He IH
     |intros c rest e Hc Hlead Htrail He IH]; intros Hcu.
  - simpl. lia.
  - apply Forall_cons in Hcu as [_ Hcu]. specialize (IH Hcu). simpl. lia.
  - apply Forall_cons in Hcu as [_ [_ Hcu]%Forall_cons]. specialize (IH Hcu).
    rewrite length_app, length_percent_octets.
    destruct (utf8_octets_length (UTF16SurrogatePairToCodePoint c d)) as [? _].
    simpl. lia.
  - apply Forall_cons in Hcu as [Hcc Hcu]. specialize (IH Hcu).
    rewrite length_app, length_percent_octets.
    destruct (utf8_octets_length c) as [? Hlt]. specialize (Hlt ltac:(lia)).
    simpl. lia.
Qed.

(** X6: the encoding of a string that starts with an encodable prefix is
    the encoding of the prefix followed by the encoding of the rest
    (and throws exactly when the rest does). *)
Theorem Encode_app s1 s2 e1 :
  URI.encodeURIComponent s1 = Some e1 →
  URI.encodeURIComponent (s1 ++ s2)
  = (e1 ++.) <$> URI.encodeURIComponent s2.
Proof.
  unfold URI.encodeURIComponent. revert s1 e1.
  apply (Encode_cases (λ s1 e1, Encode (s1 ++ s2) = (e1 ++.) <$> Encode s2));
    [|intros c rest e Hc He IH|intros c d rest e Hc Hlead Htrail He IH
     |intros c rest e Hc Hlead Htrail He IH].
  - cbn [app]. by destruct (Encode s2).
  - cbn [app Encode]. rewrite Hc, IH. by destruct (Encode s2).
  - cbn [app Encode]. rewrite Hc, Hlead, Htrail, IH.
    destruct (Encode s2); [|done]. simpl. by rewrite <- app_assoc.
  - cbn [app Encode]. rewrite Hc, Hlead, Htrail, IH.
    destruct (Encode s2); [|done]. simpl. by rewrite <- app_assoc.
Qed.

End EncodeFacts.

(** ** More on the URL handlers *)

(** X7: generate-upload-url and generate-download-url reject every falsy
    filename ([null], [false], [0], the empty string, an absent property)
    with the 400 response and leave the world as it was. *)
Theorem falsy_filename_is_rejected w req_body :
  ToBoolean (field req_body "filename") = false →
  generate_upload_url req_body w
  = (inr (status_json 400 [("error", JStr (js "Filename is required"))]), w)
  ∧ generate_download_url req_body w
    = (inr (status_json 400 [("error", JStr (js "Filename is required"))]), w).
Proof. intros Hf. destruct w. run_handler. by rewrite Hf. Qed.

(** X8: when the signing call throws, generate-upload-url and
    generate-download-url answer 500 with [success: false] and the
    message of the error, or their own fallback text when that message is
    empty; the trace gains the signing request and one [console.error]. *)
Theorem signing_failure_is_reported w req_body e :
  ToBoolean (field req_body "filename") = true →
  (presigner w (upload_command w req_body) 3600 = inl e →
   ∃ w',
     generate_upload_url req_body w
     = (inr (status_json 500
               [("success", JBool false);
                ("error", JStr (or_default (Some (message e))
                                  (js "Failed to generate presigned URL")))]),
        w')
     ∧ trace w' = trace w ++ [EvSign (upload_command w req_body) 3600;
                              EvConsoleError (js "Error generating presigned URL:") e])
  ∧ (presigner w (download_command w req_body) 3600 = inl e →
     ∃ w',
       generate_download_url req_body w
       = (inr (status_json 500
                 [("success", JBool false);
                  ("error", JStr (or_default (Some (message e))
                                    (js "Failed to generate download URL")))]),
          w')
       ∧ trace w' = trace w ++ [EvSign (download_command w req_body) 3600;
                                EvConsoleError (js "Error generating download URL:") e]).
Proof.
  intros Hf. destruct w. unfold upload_command, download_command. simpl.
  split; intros Hsign; run_handler; rewrite Hf; cbn [negb]; cbv beta iota zeta;
    rewrite Hsign; cbv beta iota zeta.
  all: eexists; split; [reflexivity|]; by rewrite <- app_assoc.
Qed.

(** X9: for any truthy filename, when signing succeeds,
    generate-download-url answers exactly [{success: true, presignedUrl,
    filename, message}] with status 200: it echoes the filename and
    returns the signer's URL, the body has no [publicUrl], and the only
    effect is the one signing request. *)
Theorem download_url_response w req_body url :
  ToBoolean (field req_body "filename") = true →
  presigner w (download_command w req_body) 3600 = inr url →
  ∃ w',
    generate_download_url req_body w
    = (inr (json [("success", JBool true);
                  ("presignedUrl", JStr url);
                  ("filename", field req_body "filename");
                  ("message", JStr (js "Download URL generated successfully"))]),
       w')
    ∧ trace w' = trace w ++ [EvSign (download_command w req_body) 3600].
Proof.
  intros Hf Hsign. destruct w. unfold download_command in *. simpl in *.
  run_handler. rewrite Hf. cbn [negb]. cbv beta iota zeta.
  rewrite Hsign. cbv beta iota zeta. by eexists.
Qed.

(** X10: a string filename with an unpaired surrogate never gets a public
    URL from generate-upload-url: whatever the signing call does, the
    answer is 500 with [success: false], an [error] message and neither
    [publicUrl] nor [presignedUrl].  The message is that of the signer's
    error when the signing call throws (its fallback text when empty),
    and ["URI malformed"] from [encodeURIComponent] otherwise. *)
Theorem upload_url_ill_formed_filename w req_body fn :
  req_body !! "filename" = Some (JStr fn) →
  isWellFormed fn = false →
  ∃ r w' msg,
    generate_upload_url req_body w = (inr r, w')
    ∧ status r = 500%Z
    ∧ body r !! "success" = Some (JBool false)
    ∧ body r !! "error" = Some (JStr msg)
    ∧ body r !! "publicUrl" = None
    ∧ body r !! "presignedUrl" = None
    ∧ msg = match presigner w (upload_command w req_body) 3600 with
            | inl e => or_default (Some (message e))
                         (js "Failed to generate presigned URL")
            | inr _ => js "URI malformed"
            end.
Proof.
  intros Hfn Hwf.
  assert (URI.encodeURIComponent fn = None) as Henc.
  { destruct (URI.encodeURIComponent fn) eqn:He; [|done].
    apply EncodeFacts.Encode_well_formed in He. congruence. }
  assert (fn ≠ []) as Hne by (by intros ->).
  destruct w. unfold upload_command, field in *. simpl.
  run_handler. unfold field. rewrite Hfn in *.
  cbn [default from_option id ToBoolean ToString] in *.
  destruct (bool_decide_reflect (fn = [])); [done|].
  cbn [negb]. cbv beta iota zeta.
  repeat branch; simplify_eq.
  all: eexists _, _, _; (split; [reflexivity|]); cbv beta iota zeta.
  all: do 5 (split; [reflexivity|]).
  all: first [reflexivity | unfold or_default; by case_bool_decide].
Qed.

(** X11: generate-upload-url and generate-download-url change nothing of
    the world but the trace, send no command to the store and delete no
    file; [GET /health] answers its fixed payload and changes nothing. *)
Theorem url_handlers_leave_disk_and_bucket w req_body :
  (∃ evs, (generate_upload_url req_body w).2 = set_trace (trace w ++ evs) w
          ∧ sent_commands evs = [] ∧ unlink_attempts evs = [])
  ∧ (∃ evs, (generate_download_url req_body w).2 = set_trace (trace w ++ evs) w
            ∧ sent_commands evs = [] ∧ unlink_attempts evs = [])
  ∧ health w
    = (inr (json [("status", JStr (js "ok"));
                  ("message", JStr (js "R2 uploader is running"))]), w).
Proof.
  destruct w. split; [|split; [|done]].
  - run_handler. destruct (ToBoolean (field req_body "filename"));
      cbv beta iota zeta; cbn [negb]; repeat branch.
    all: eexists; cbn [snd]; split;
      [rewrite <- ?app_assoc; try reflexivity; by rewrite app_nil_r|done].
  - run_handler. destruct (ToBoolean (field req_body "filename"));
      cbv beta iota zeta; cbn [negb]; repeat branch.
    all: eexists; cbn [snd]; split;
      [rewrite <- ?app_assoc; try reflexivity; by rewrite app_nil_r|done].
Qed.

(** X12: the public URL depends only on the filename and on
    [R2_PUBLIC_URL]: two successful calls for the same filename under the
    same [R2_PUBLIC_URL] return the same [publicUrl], whatever the signer
    returns and whatever else the bodies hold. *)
Theorem public_url_is_stable w1 w2 b1 b2 r1 r2 w1' w2' u1 u2 :
  b1 !! "filename" = b2 !! "filename" →
  R2_PUBLIC_URL w1 = R2_PUBLIC_URL w2 →
  generate_upload_url b1 w1 = (inr r1, w1') →
  generate_upload_url b2 w2 = (inr r2, w2') →
  body r1 !! "publicUrl" = Some (JStr u1) →
  body r2 !! "publicUrl" = Some (JStr u2) →
  u1 = u2.
Proof.
  intros Hf Hu Hrun1 Hrun2 H1 H2. destruct w1, w2. simpl in Hu. subst.
  revert Hrun1 Hrun2. run_handler. unfold field. rewrite Hf.
  destruct (ToBoolean (default JUndefined (b2 !! "filename")));
    cbv beta iota zeta; cbn [negb]; repeat branch;
    intros [= <- <-] [= <- <-].
  all: body_property H1 "publicUrl".
  all: body_property H2 "publicUrl".
  all: reflexivity.
Qed.

(** X13: for any truthy filename (a string or not), when signing
    succeeds and the string conversion of the filename encodes,
    generate-upload-url answers exactly [{success: true, presignedUrl,
    publicUrl, filename, message}], where [filename] echoes the value of
    the request and [publicUrl] is built from its string conversion; the
    trace gains the one signing request. *)
Theorem upload_url_success_response w req_body url enc :
  ToBoolean (field req_body "filename") = true →
  presigner w (upload_command w req_body) 3600 = inr url →
  URI.encodeURIComponent (ToString (field req_body "filename")) = Some enc →
  ∃ w',
    generate_upload_url req_body w
    = (inr (json [("success", JBool true);
                  ("presignedUrl", JStr url);
                  ("publicUrl", JStr (base_url w ++ js "/" ++ enc));
                  ("filename", field req_body "filename");
                  ("message", JStr (js "Presigned URL generated successfully"))]),
       w')
    ∧ trace w' = trace w ++ [EvSign (upload_command w req_body) 3600].
Proof.
  intros Hf Hsign Henc. destruct w. unfold upload_command, base_url in *.
  simpl in *. run_handler. rewrite Hf. cbn [negb]. cbv beta iota zeta.
  rewrite Hsign. cbv beta iota zeta. rewrite Henc. cbv beta iota zeta.
  by eexists.
Qed.

(** ** More on [POST /upload] *)

(** X14: when the staged file is not on the disk, [POST /upload] answers
    500 with the error ["Uploaded file not found on disk"]; it reads
    nothing, sends nothing and attempts no delete: the world only gains
    the [console.error] of that error. *)
Theorem upload_file_not_found w file :
  disk w !! path file = None →
  upload (Some file) w
  = (inr (status_json 500
            [("success", JBool false);
             ("error", JStr (js "Uploaded file not found on disk"))]),
     set_trace
       (trace w ++ [EvConsoleError (js "Upload error:")
                      {| message := js "Uploaded file not found on disk" |}])
       w).
Proof.
  intros Hd. destruct w. simpl in Hd. run_handler. cbn [ToBoolean].
  repeat branch; try contradictory; reflexivity.
Qed.

(** X15: when the store rejects the write, [POST /upload] answers 500
    with the store's message (["Upload failed"] when it is empty), the
    bucket is unchanged, the temporary file is deleted by the cleanup of
    the [catch], and the steps run in the order read, send, log, delete. *)
Theorem upload_store_rejects w file buffer e :
  path file ≠ [] →
  disk w !! path file = Some buffer →
  read_fault w (path file) = None →
  send_fault w (PutObjectCommand (upload_params w file buffer)) = Some e →
  no_fault (head (unlink_faults w)) →
  ∃ w',
    upload (Some file) w
    = (inr (status_json 500
              [("success", JBool false);
               ("error", JStr (or_default (Some (message e))
                                 (js "Upload failed")))]), w')
    ∧ bucket w' = bucket w
    ∧ disk w' = delete (path file) (disk w)
    ∧ trace w' = trace w ++ [EvRead (path file);
                             EvSend (PutObjectCommand (upload_params w file buffer));
                             EvConsoleError (js "Upload error:") e;
                             EvUnlink (path file)].
Proof.
  intros Hp Hd Hr Hs Hu. destruct w. unfold upload_params, no_fault in *.
  simpl in *. run_handler. cbn [ToBoolean]. repeat branch.
  all: destruct Hu; simplify_eq; try contradictory.
  all: eexists; split; [reflexivity|]; cbv beta iota zeta.
  all: by rewrite <- !app_assoc.
Qed.

(** X16: when the store rejects the write and the cleanup delete throws
    too, the response still carries the store's error, the cleanup error
    is only logged by a second [console.error], and the temporary file
    stays on the disk. *)
Theorem upload_cleanup_failure_is_logged w file buffer e e' :
  path file ≠ [] →
  disk w !! path file = Some buffer →
  read_fault w (path file) = None →
  send_fault w (PutObjectCommand (upload_params w file buffer)) = Some e →
  head (unlink_faults w) = Some (Some e') →
  ∃ w',
    upload (Some file) w
    = (inr (status_json 500
              [("success", JBool false);
               ("error", JStr (or_default (Some (message e))
                                 (js "Upload failed")))]), w')
    ∧ bucket w' = bucket w
    ∧ disk w' = disk w
    ∧ trace w' = trace w ++ [EvRead (path file);
                             EvSend (PutObjectCommand (upload_params w file buffer));
                             EvConsoleError (js "Upload error:") e;
                             EvUnlink (path file);
                             EvConsoleError (js "Error cleaning up temp file:") e'].
Proof.
  intros Hp Hd Hr Hs Hu. destruct w. unfold upload_params in *.
  simpl in *. run_handler. cbn [ToBoolean]. repeat branch.
  all: simplify_eq; try contradictory.
  all: eexists; split; [reflexivity|]; cbv beta iota zeta.
  all: by rewrite <- !app_assoc.
Qed.

(** X17: a successful [POST /upload] stores the bytes read from the
    temporary file under the original name, not percent-encoded, with the
    mimetype as content type, removes the temporary file, and runs read,
    send, delete in that order. *)
Theorem upload_success_effects w file buffer :
  disk w !! path file = Some buffer →
  read_fault w (path file) = None →
  send_fault w (PutObjectCommand (upload_params w file buffer)) = None →
  no_fault (head (unlink_faults w)) →
  isWellFormed (originalname file) = true →
  ∃ r w',
    upload (Some file) w = (inr r, w')
    ∧ status r = 200%Z
    ∧ bucket w'
      = <[originalname file :=
            {| data := buffer; content_type := JStr (mimetype file) |}]> (bucket w)
    ∧ disk w' = delete (path file) (disk w)
    ∧ trace w' = trace w ++ [EvRead (path file);
                             EvSend (PutObjectCommand (upload_params w file buffer));
                             EvUnlink (path file)].
Proof.
  intros Hd Hr Hs Hu Hwf.
  destruct (URIFacts.Encode_total _ Hwf) as [enc Henc].
  destruct w. unfold upload_params, no_fault in *. simpl in *.
  run_handler. cbn [ToBoolean ToString]. unfold URI.encodeURIComponent in *.
  repeat branch.
  all: destruct Hu; simplify_eq; try contradictory.
  all: eexists _, _; split; [reflexivity|]; cbv beta iota zeta.
  all: by rewrite <- !app_assoc.
Qed.

(** What a 200 response of [POST /upload] tells of the world. *)
Lemma upload_ok_effects w file r w' :
  upload (Some file) w = (inr r, w') →
  status r = 200%Z →
  ∃ buffer,
    disk w !! path file = Some buffer
    ∧ bucket w'
      = <[originalname file :=
            {| data := buffer; content_type := JStr (mimetype file) |}]> (bucket w)
    ∧ disk w' = delete (path file) (disk w).
Proof.
  intros Hrun Hst. destruct w. revert Hrun. run_handler.
  cbn [ToBoolean ToString].
  repeat branch; intros [= <- <-]; try discriminate Hst.
  all: clear Hst; simplify_eq; by eexists.
Qed.

(** X18: the last write wins: after two successful uploads under the
    same original name the bucket holds the bytes and content type of the
    second, and every other key is as before the first. *)
Theorem upload_last_write_wins w file file' r w1 r' w2 buffer' :
  originalname file' = originalname file →
  upload (Some file) w = (inr r, w1) →
  status r = 200%Z →
  disk w1 !! path file' = Some buffer' →
  upload (Some file') w1 = (inr r', w2) →
  status r' = 200%Z →
  bucket w2 !! originalname file
  = Some {| data := buffer'; content_type := JStr (mimetype file') |}
  ∧ ∀ key, key ≠ originalname file → bucket w2 !! key = bucket w !! key.
Proof.
  intros Hname Hrun Hst Hd' Hrun' Hst'.
  destruct (upload_ok_effects _ _ _ _ Hrun Hst) as (buffer & _ & Hb & _).
  destruct (upload_ok_effects _ _ _ _ Hrun' Hst') as (b' & Hdb & Hb' & _).
  rewrite Hd' in Hdb. injection Hdb as <-.
  rewrite Hb', Hb, Hname. split; [apply lookup_insert_eq|].
  intros key Hkey. by rewrite !lookup_insert_ne.
Qed.

(** X19: [POST /upload] touches nothing but its own: whatever the
    outcome, every bucket key other than the original name and every disk
    path other than the temporary file are unchanged, and a request
    without file changes nothing at all. *)
Theorem upload_touches_only_its_own w req_file :
  (∀ file key, req_file = Some file → key ≠ originalname file →
     bucket (upload req_file w).2 !! key = bucket w !! key)
  ∧ (∀ file p, req_file = Some file → p ≠ path file →
       disk (upload req_file w).2 !! p = disk w !! p)
  ∧ (req_file = None → (upload req_file w).2 = w).
Proof.
  destruct w. split; [|split].
  - intros file key -> Hkey. run_handler. cbn [ToBoolean].
    repeat branch; cbn [snd]; try reflexivity; by rewrite lookup_insert_ne.
  - intros file p -> Hp. run_handler. cbn [ToBoolean].
    repeat branch; cbn [snd]; try reflexivity;
      by rewrite ?lookup_delete_ne.
  - by intros ->.
Qed.

(** ** Further instances *)

Lemma public_url_injective_witness : js "a b.txt" = js "a b.txt".
Proof.
  apply (EncodeFacts.public_url_injective default_base_url
           (js "a b.txt") (js "a b.txt") (js "a%20b.txt") (js "a%20b.txt")).
  - apply code_units_js.
  - apply code_units_js.
  - by vm_compute.
  - by vm_compute.
  - reflexivity.
Defined.

Lemma Encode_alphabet_witness :
  Forall (λ c, URI.unescaped c = true ∨ c = 37%Z)
    (js "a%20%C3%A9%E2%82%AC%F0%9F%98%80%2F%3F%23%25").
Proof.
  apply (EncodeFacts.Encode_alphabet filename1).
  - unfold code_units, filename1. repeat (constructor; [lia|]). constructor.
  - by vm_compute.
Defined.

Lemma Encode_unescaped_verbatim_witness :
  URI.encodeURIComponent (js "video-1_final.mp4") = Some (js "video-1_final.mp4").
Proof.
  apply EncodeFacts.Encode_unescaped_verbatim.
  vm_compute. repeat (constructor; [reflexivity|]). constructor.
Defined.

Lemma Encode_length_witness :
  (length filename1 ≤ length (js "a%20%C3%A9%E2%82%AC%F0%9F%98%80%2F%3F%23%25")
   ≤ 9 * length filename1)%nat.
Proof.
  apply EncodeFacts.Encode_length.
  - unfold code_units, filename1. repeat (constructor; [lia|]). constructor.
  - by vm_compute.
Defined.

Lemma Encode_app_witness :
  URI.encodeURIComponent (js "2024/" ++ js "a b.txt")
  = (js "2024%2F" ++.) <$> URI.encodeURIComponent (js "a b.txt").
Proof. apply EncodeFacts.Encode_app. by vm_compute. Defined.

Lemma falsy_filename_witness :
  generate_upload_url {[ "filename" := JOther false (js "0") ]} world0
  = (inr (status_json 400 [("error", JStr (js "Filename is required"))]), world0)
  ∧ generate_download_url {[ "filename" := JOther false (js "0") ]} world0
    = (inr (status_json 400 [("error", JStr (js "Filename is required"))]), world0).
Proof. apply falsy_filename_is_rejected. by vm_compute. Defined.

Lemma signing_failure_witness :
  ∃ w',
    generate_upload_url body0 world_sign_fails
    = (inr (status_json 500
              [("success", JBool false);
               ("error", JStr (js "Credential is missing"))]), w').
Proof.
  destruct (signing_failure_is_reported world_sign_fails body0
              {| message := js "Credential is missing" |})
    as [Hup _]; [by vm_compute|].
  destruct Hup as (w' & Hrun & _); [by vm_compute|].
  exists w'. exact Hrun.
Defined.

Lemma download_url_response_witness :
  ∃ w',
    generate_download_url body0 world_sdk
    = (inr (json [("success", JBool true);
                  ("presignedUrl",
                   JStr (js "https://r2.example/videos/key?X-Amz-Expires=3600"));
                  ("filename", JStr (js "a b.txt"));
                  ("message", JStr (js "Download URL generated successfully"))]),
       w').
Proof.
  destruct (download_url_response world_sdk body0
              (js "https://r2.example/videos/key?X-Amz-Expires=3600"))
    as (w' & Hrun & _); [by vm_compute|by vm_compute|].
  exists w'. exact Hrun.
Defined.

Lemma upload_url_ill_formed_witness :
  ∃ r w',
    generate_upload_url {[ "filename" := JStr [97; 0xDC00]%Z ]} world_sdk
    = (inr r, w')
    ∧ status r = 500%Z
    ∧ body r !! "error" = Some (JStr (js "URI malformed"))
    ∧ body r !! "publicUrl" = None.
Proof.
  destruct (upload_url_ill_formed_filename world_sdk
              {[ "filename" := JStr [97; 0xDC00]%Z ]} [97; 0xDC00]%Z)
    as (r & w' & msg & Hrun & Hst & _ & Herr & Hpub & _ & Hmsg);
    [by vm_compute|by vm_compute|].
  exists r, w'. split; [exact Hrun|]. split; [exact Hst|]. split; [|exact Hpub].
  rewrite Herr, Hmsg. by vm_compute.
Defined.

Lemma public_url_is_stable_witness :
  ∃ r1 w1' r2 w2' u1 u2,
    generate_upload_url body0 world0 = (inr r1, w1')
    ∧ generate_upload_url body2 (set_disk ∅ world0) = (inr r2, w2')
    ∧ body r1 !! "publicUrl" = Some (JStr u1)
    ∧ body r2 !! "publicUrl" = Some (JStr u2)
    ∧ u1 = u2.
Proof.
  eexists _, _, _, _, _, _.
  split; [by vm_compute|]. split; [by vm_compute|].
  split; [by vm_compute|]. split; [by vm_compute|].
  eapply (public_url_is_stable world0 (set_disk ∅ world0) body0 body2);
    by vm_compute.
Defined.

Lemma upload_url_success_witness :
  ∃ w',
    generate_upload_url {[ "filename" := JOther true (js "42") ]} world0
    = (inr (json [("success", JBool true);
                  ("presignedUrl",
                   JStr (js "https://r2.example/videos/key?X-Amz-Expires=3600"));
                  ("publicUrl", JStr (js "https://cdn.atulyaayurveda.shop/42"));
                  ("filename", JOther true (js "42"));
                  ("message", JStr (js "Presigned URL generated successfully"))]),
       w').
Proof.
  destruct (upload_url_success_response world0
              {[ "filename" := JOther true (js "42") ]}
              (js "https://r2.example/videos/key?X-Amz-Expires=3600") (js "42"))
    as (w' & Hrun & _); [by vm_compute|by vm_compute|by vm_compute|].
  exists w'. exact Hrun.
Defined.

Lemma upload_file_not_found_witness :
  ∃ w',
    upload (Some {| path := js "uploads/gone"; originalname := js "a b.txt";
                    mimetype := js "text/plain" |}) world0
    = (inr (status_json 500
              [("success", JBool false);
               ("error", JStr (js "Uploaded file not found on disk"))]), w').
Proof. eexists. apply upload_file_not_found. by vm_compute. Defined.

Lemma upload_store_rejects_witness :
  ∃ w',
    upload (Some file0) world_store_rejects
    = (inr (status_json 500 [("success", JBool false);
                             ("error", JStr (js "AccessDenied"))]), w')
    ∧ bucket w' = ∅
    ∧ disk w' !! path file0 = None.
Proof.
  destruct (upload_store_rejects world_store_rejects file0 [104; 105]%Z
              {| message := js "AccessDenied" |})
    as (w' & Hrun & Hb & Hd & _); try by vm_compute.
  { by left. }
  exists w'. split; [exact Hrun|]. split; [exact Hb|].
  rewrite Hd. apply lookup_delete_eq.
Defined.

Lemma upload_cleanup_failure_witness :
  ∃ w',
    upload (Some file0) (set_unlink_faults [Some EPERM] world_store_rejects)
    = (inr (status_json 500 [("success", JBool false);
                             ("error", JStr (js "AccessDenied"))]), w')
    ∧ disk w' !! path file0 = Some [104; 105]%Z.
Proof.
  destruct (upload_cleanup_failure_is_logged
              (set_unlink_faults [Some EPERM] world_store_rejects) file0
              [104; 105]%Z {| message := js "AccessDenied" |} EPERM)
    as (w' & Hrun & _ & Hd & _); try by vm_compute.
  exists w'. split; [exact Hrun|]. rewrite Hd. by vm_compute.
Defined.

Lemma upload_success_effects_witness :
  ∃ r w',
    upload (Some file0) world0 = (inr r, w')
    ∧ status r = 200%Z
    ∧ bucket w' !! js "a b.txt"
      = Some {| data := [104; 105]%Z; content_type := JStr (js "text/plain") |}
    ∧ disk w' !! path file0 = None.
Proof.
  destruct (upload_success_effects world0 file0 [104; 105]%Z)
    as (r & w' & Hrun & Hst & Hb & Hd & _); try by vm_compute.
  { by left. }
  exists r, w'. split; [exact Hrun|]. split; [exact Hst|].
  rewrite Hb, Hd. split; [apply lookup_insert_eq|apply lookup_delete_eq].
Defined.

Lemma upload_last_write_wins_witness :
  ∃ r w1 r' w2,
    upload (Some file0) (set_disk disk2 world0) = (inr r, w1)
    ∧ upload (Some file1) w1 = (inr r', w2)
    ∧ bucket w2 !! js "a b.txt"
      = Some {| data := [98; 121; 101]%Z;
                content_type := JStr (js "application/pdf") |}.
Proof.
  eexists _, _, _, _. split; [by vm_compute|]. split; [by vm_compute|].
  eapply (upload_last_write_wins (set_disk disk2 world0) file0 file1);
    by vm_compute.
Defined.

Lemma upload_touches_only_its_own_witness :
  bucket (upload (Some file0) world0).2 !! js "other.txt"
  = bucket world0 !! js "other.txt"
  ∧ disk (upload (Some file0) (set_disk disk2 world0)).2 !! path file1
    = Some [98; 121; 101]%Z.
Proof.
  split.
  - by apply (proj1 (upload_touches_only_its_own world0 (Some file0)) file0).
  - rewrite (proj1 (proj2 (upload_touches_only_its_own
                             (set_disk disk2 world0) (Some file0))) file0);
      by vm_compute.
Defined.
